(** * Authentication resolvers of the reddit clone (server/src/resolvers/user.ts)

    A shallow embedding of [UserResolver]: [register], [login],
    [forgotPassword] and [changePassword] become computations in a small
    state-and-exception monad over a [World] that holds what the resolvers
    reach through their context: the [User] table behind [em], the key-value
    store behind [redis], the request's session, and the mail outbox.

    Conventions.
    - A JavaScript string is a [string]; one character stands for one code
      unit, so [String.length] is the [.length] of the source.
    - A [number] that holds a row id is a [Z]; [NaN] is [None] where it can
      arise ([parseInt]).
    - Every call on a collaborator is recorded in the world's [log], so that
      "this store was not consulted" is a statement about the log.
    - The only collaborator failure the source handles is the failure of the
      insert in [register] (its [try]/[catch]); the world can therefore hold
      a pending fault of the insert. The other collaborators follow their
      contracts. *)

From Stdlib Require Import ZArith String Ascii List Bool Lia.
From stdpp Require Import base option gmap strings.

Local Open Scope string_scope.
Local Open Scope Z_scope.
Local Open Scope list_scope.

(** ** JavaScript primitives used by the resolvers *)

Module Js.

(** [s.includes(search)]: [search] occurs in [s] as a contiguous substring. *)
Fixpoint includes (s search : string) : bool :=
  String.prefix search s ||
  match s with
  | EmptyString => false
  | String _ s' => includes s' search
  end.

(** White space skipped by [parseInt] (among the code units below 256). *)
Definition is_white_space (c : ascii) : bool :=
  let n := nat_of_ascii c in
  ((9 <=? n) && (n <=? 13))%nat || (n =? 32)%nat || (n =? 160)%nat.

Fixpoint trim_start (s : string) : string :=
  match s with
  | String c s' => if is_white_space c then trim_start s' else s
  | EmptyString => s
  end.

(** Value of a digit in the given radix (10 or 16 here). *)
Definition digit_value (radix : Z) (c : ascii) : option Z :=
  let n := Z.of_nat (nat_of_ascii c) in
  let v :=
    if (48 <=? n) && (n <=? 57) then Some (n - 48)
    else if (97 <=? n) && (n <=? 102) then Some (n - 87)
    else if (65 <=? n) && (n <=? 70) then Some (n - 55)
    else None in
  match v with
  | Some d => if d <? radix then Some d else None
  | None => None
  end.

(** The longest prefix of digits, read most significant first; [acc] is
    [None] until a digit has been read. *)
Fixpoint parse_digits (radix : Z) (acc : option Z) (s : string) : option Z :=
  match s with
  | EmptyString => acc
  | String c s' =>
      match digit_value radix c with
      | Some d => parse_digits radix (Some (radix * default 0 acc + d)) s'
      | None => acc
      end
  end.

(** [parseInt(s)] with no radix argument: leading white space, an optional
    sign, an optional [0x]/[0X] prefix selecting radix 16, then the longest
    run of digits; [None] is [NaN]. *)
Definition parseInt (s : string) : option Z :=
  let s1 := trim_start s in
  let '(sign, s2) :=
    match s1 with
    | String "-" r => (-1, r)
    | String "+" r => (1, r)
    | _ => (1, s1)
    end in
  let '(radix, s3) :=
    match s2 with
    | String "0" (String "x" r) => (16, r)
    | String "0" (String "X" r) => (16, r)
    | _ => (10, s2)
    end in
  match parse_digits radix None s3 with
  | Some n => Some (sign * n)
  | None => None
  end.

(** Decimal digits of a positive number, least significant digit last.
    The recursion follows the binary representation, which bounds the number
    of decimal digits. *)
Definition digit_char (d : Z) : ascii := ascii_of_nat (Z.to_nat (48 + d)).

Fixpoint digits_fuel (fuel : nat) (n : Z) (acc : string) : string :=
  match fuel with
  | O => acc
  | S fuel' =>
      let acc' := String (digit_char (n mod 10)) acc in
      if n <? 10 then acc' else digits_fuel fuel' (n / 10) acc'
  end.

(** [String(n)] for an integer [n], as a client library renders a numeric
    argument before sending it to the store. *)
Definition Number_toString (n : Z) : string :=
  let digits m := digits_fuel (S (Z.to_nat (Z.log2 m))) m EmptyString in
  if n <? 0 then String "-" (digits (- n)) else digits n.

End Js.

(** ** Data model *)

(** A row of the [User] table, with the columns [register] inserts. *)
Record User := mkUser {
  id : Z;
  username : string;
  email : string;
  password : string;
  created_at : Z;
  updated_at : Z;
}.

(** The input type [UsernamePasswordInput]; its fields share their names
    with the columns of [User], hence the module. *)
Module UsernamePasswordInput.
Record t := mk {
  email : string;
  username : string;
  password : string;
}.
End UsernamePasswordInput.

Record FieldError := mkFieldError {
  field : string;
  message : string;
}.

(** [UserResponse]: both fields are optional in the source. *)
Record UserResponse := mkUserResponse {
  errors : option (list FieldError);
  user : option User;
}.

(** The object literals [{ errors }] and [{ user }]. *)
Definition response_errors (es : list FieldError) : UserResponse :=
  {| errors := Some es; user := None |}.

Definition response_user (u : User) : UserResponse :=
  {| errors := None; user := Some u |}.

(** [req.session]: the one field the resolvers use. *)
Record Session := mkSession {
  userId : option Z;
}.

(** An entry of the key-value store: the value and the instant
    (milliseconds) at which it expires. *)
Record RedisEntry := mkRedisEntry {
  value : string;
  expire_at : Z;
}.

(** The error object a failed insert rejects with; [detail] may be missing. *)
Record DbError := mkDbError {
  db_message : string;
  detail : option string;
}.

Inductive Exn :=
  | DbExn (e : DbError)
  | TypeError (msg : string)
  | ReplyError (msg : string).

(** The [where] argument of [em.findOne(User, ...)]; an id is a JavaScript
    number, [None] being [NaN]. *)
Inductive UserQuery :=
  | ById (i : option Z)
  | ByUsername (s : string)
  | ByEmail (s : string).

(** Calls on the collaborators, in the order they are made. *)
Inductive Event :=
  | Argon2Hash (plain : string)
  | Argon2Verify (hash plain : string)
  | UuidV4
  | EmFindOne (q : UserQuery)
  | KnexInsert (uname pwd mail : string)
  | EmPersistAndFlush (u : User)
  | RedisSet (key val mode : string) (time : Z)
  | RedisGet (key : string)
  | RedisDel (key : string)
  | SessionSetUserId (i : Z)
  | SendEmail (to html : string).

Record World := mkWorld {
  users : list User;                 (* the User table, in insertion order *)
  next_id : Z;                       (* the sequence behind the id column *)
  insert_fault : option DbError;     (* a pending failure of the insert *)
  redis : gmap string RedisEntry;    (* the key-value store *)
  now : Z;                           (* the clock, in milliseconds *)
  session : Session;                 (* req.session *)
  outbox : list (string * string);   (* mails handed to the transport *)
  entropy : nat;                     (* randomness drawn so far *)
  log : list Event;                  (* collaborator calls, oldest first *)
}.

Definition set_users (us : list User) (w : World) : World :=
  mkWorld us (next_id w) (insert_fault w) (redis w) (now w) (session w)
          (outbox w) (entropy w) (log w).
Definition set_next_id (n : Z) (w : World) : World :=
  mkWorld (users w) n (insert_fault w) (redis w) (now w) (session w)
          (outbox w) (entropy w) (log w).
Definition set_redis (r : gmap string RedisEntry) (w : World) : World :=
  mkWorld (users w) (next_id w) (insert_fault w) r (now w) (session w)
          (outbox w) (entropy w) (log w).
Definition set_now (t : Z) (w : World) : World :=
  mkWorld (users w) (next_id w) (insert_fault w) (redis w) t (session w)
          (outbox w) (entropy w) (log w).
Definition set_session (s : Session) (w : World) : World :=
  mkWorld (users w) (next_id w) (insert_fault w) (redis w) (now w) s
          (outbox w) (entropy w) (log w).
Definition set_outbox (o : list (string * string)) (w : World) : World :=
  mkWorld (users w) (next_id w) (insert_fault w) (redis w) (now w) (session w)
          o (entropy w) (log w).
Definition set_entropy (n : nat) (w : World) : World :=
  mkWorld (users w) (next_id w) (insert_fault w) (redis w) (now w) (session w)
          (outbox w) n (log w).
Definition set_log (l : list Event) (w : World) : World :=
  mkWorld (users w) (next_id w) (insert_fault w) (redis w) (now w) (session w)
          (outbox w) (entropy w) l.

(** Time passing between two requests. *)
Definition elapse (ms : Z) (w : World) : World := set_now (now w + ms) w.

(** What [logout] reaches beyond the stores of a [World]: the cookies the
    response tells the client to clear, the console, and a pending failure
    of the session store's [destroy]. *)
Record Exchange := mkExchange {
  stores : World;
  destroy_fault : option string;
  cleared_cookies : list string;
  console : list string;
}.

(** ** The monad of a resolver: state, and a result or a thrown exception *)

Inductive Outcome (A : Type) :=
  | Returned (a : A)
  | Thrown (e : Exn).
Arguments Returned {A} a.
Arguments Thrown {A} e.

Definition M (A : Type) : Type := World -> Outcome A * World.

Definition ret {A} (a : A) : M A := fun w => (Returned a, w).

Definition throw {A} (e : Exn) : M A := fun w => (Thrown e, w).

Definition bind {A B} (m : M A) (k : A -> M B) : M B :=
  fun w =>
    match m w with
    | (Returned a, w') => k a w'
    | (Thrown e, w') => (Thrown e, w')
    end.

(** [try { m } catch (err) { h err }] *)
Definition try_catch {A} (m : M A) (h : Exn -> M A) : M A :=
  fun w =>
    match m w with
    | (Returned a, w') => (Returned a, w')
    | (Thrown e, w') => h e w'
    end.

Declare Scope resolver_scope.
Delimit Scope resolver_scope with resolver.
Notation "x <- m ;; k" := (bind m (fun x => k))
  (at level 100, m at next level, right associativity) : resolver_scope.
Notation "m ;; k" := (bind m (fun _ => k))
  (at level 100, right associativity) : resolver_scope.
Local Open Scope resolver_scope.

Definition record (e : Event) : M unit :=
  fun w => (Returned tt, set_log (log w ++ [e]) w).

(** What a run of a resolver leaves behind. *)
Definition result {A} (m : M A) (w : World) : Outcome A := fst (m w).
Definition after {A} (m : M A) (w : World) : World := snd (m w).

(** The collaborator calls a run made, given that the log only grows. *)
Definition calls {A} (m : M A) (w : World) : list Event :=
  drop (List.length (log w)) (log (after m w)).

(** ** The collaborators *)

(** *** The [User] table behind [em] *)

Definition matches (q : UserQuery) (u : User) : bool :=
  match q with
  | ById (Some i) => id u =? i
  | ById None => false
  | ByUsername s => String.eqb (username u) s
  | ByEmail s => String.eqb (email u) s
  end.

Definition lookup_user (q : UserQuery) (w : World) : option User :=
  List.find (matches q) (users w).

(** [em.findOne(User, q)]: the row that matches, or [null]. An id that is
    [NaN] is not a value of the integer column, and the engine rejects the
    query. *)
Definition em_findOne (q : UserQuery) : M (option User) :=
  record (EmFindOne q);;
  match q with
  | ById None =>
      throw (DbExn (mkDbError "invalid input syntax for type integer" None))
  | _ => fun w => (Returned (lookup_user q w), w)
  end.

(** The [detail] of the engine's unique-violation error. *)
Definition unique_violation (column val : string) : DbError :=
  mkDbError "duplicate key value violates unique constraint"
            (Some ("Key (" +:+ column +:+ ")=(" +:+ val +:+ ") already exists.")).

(** The insert of [register], [.returning("*")]: the new row, or a rejection.
    A pending fault rejects first. Otherwise the id is drawn from the
    sequence (which a rejected insert consumes too), then the uniqueness of
    [username] and of [email] is enforced; both timestamps are [new Date()]. *)
Definition knex_insert (uname pwd mail : string) : M User :=
  record (KnexInsert uname pwd mail);;
  fun w =>
    match insert_fault w with
    | Some e => (Thrown (DbExn e), w)
    | None =>
        let row := mkUser (next_id w) uname mail pwd (now w) (now w) in
        let w1 := set_next_id (next_id w + 1) w in
        if existsb (fun u => String.eqb (username u) uname) (users w) then
          (Thrown (DbExn (unique_violation "username" uname)), w1)
        else if existsb (fun u => String.eqb (email u) mail) (users w) then
          (Thrown (DbExn (unique_violation "email" mail)), w1)
        else (Returned row, set_users (users w ++ [row]) w1)
    end.

(** [em.persistAndFlush(u)], called without [await]: the call starts the
    flush and the resolver goes on at once. Nothing is written to the table
    by the time the resolver reads or returns; the call is on the log, and
    the table is written when the flush lands ([flush_lands]). *)
Definition em_persistAndFlush (u : User) : M unit :=
  record (EmPersistAndFlush u).


(** *** The key-value store behind [redis] *)

Definition to_lower (c : ascii) : ascii :=
  let n := nat_of_ascii c in
  if ((65 <=? n) && (n <=? 90))%nat then ascii_of_nat (n + 32) else c.

Fixpoint lowercase (s : string) : string :=
  match s with
  | EmptyString => EmptyString
  | String c s' => String (to_lower c) (lowercase s')
  end.

(** The lifetime in milliseconds that [SET key value mode time] asks for:
    [EX] counts seconds, [PX] counts milliseconds (option names are case
    insensitive). *)
Definition lifetime_ms (mode : string) (time : Z) : option Z :=
  if String.eqb (lowercase mode) "ex" then Some (time * 1000)
  else if String.eqb (lowercase mode) "px" then Some time
  else None.

(** [redis.set(key, val, mode, time)] *)
Definition redis_set (key val mode : string) (time : Z) : M unit :=
  record (RedisSet key val mode time);;
  match lifetime_ms mode time with
  | None => throw (ReplyError "ERR syntax error")
  | Some ms =>
      if time <=? 0 then throw (ReplyError "ERR invalid expire time in set")
      else fun w =>
        (Returned tt,
         set_redis (<[key := mkRedisEntry val (now w + ms)]> (redis w)) w)
  end.

(** What the store holds under [key] at the world's instant. *)
Definition live_value (key : string) (w : World) : option string :=
  match redis w !! key with
  | Some e => if now w <? expire_at e then Some (value e) else None
  | None => None
  end.

(** [redis.get(key)]: the value, or [null] when absent or expired. *)
Definition redis_get (key : string) : M (option string) :=
  record (RedisGet key);;
  fun w => (Returned (live_value key w), w).

(** [redis.del(key)] *)
Definition redis_del (key : string) : M unit :=
  record (RedisDel key);;
  fun w => (Returned tt, set_redis (delete key (redis w)) w).

(** *** The session *)

(** [req.session!.userId = i] *)
Definition session_set_userId (i : Z) : M unit :=
  record (SessionSetUserId i);;
  fun w => (Returned tt, set_session (mkSession (Some i)) w).

(** [req.session!.userId], read. *)
Definition session_userId : M (option Z) :=
  fun w => (Returned (userId (session w)), w).

(** [req.session!.destroy(callback)]: the value handed to the callback and
    the exchange left. The store either fails, and the session record stays
    as it is, or removes the record: whoever presents the session from then
    on is anonymous. *)
Definition session_destroy (x : Exchange) : option string * Exchange :=
  match destroy_fault x with
  | Some err => (Some err, x)
  | None =>
      (None,
       mkExchange (set_session (mkSession None) (stores x)) (destroy_fault x)
                  (cleared_cookies x) (console x))
  end.

(** [res.clearCookie(name)] and [console.log(err)] *)
Definition clearCookie (name : string) (x : Exchange) : Exchange :=
  mkExchange (stores x) (destroy_fault x) (cleared_cookies x ++ [name]) (console x).

Definition console_log (line : string) (x : Exchange) : Exchange :=
  mkExchange (stores x) (destroy_fault x) (cleared_cookies x) (console x ++ [line]).

(** *** The mail transport *)

(** Modelled from the spec: [sendEmail] of [utils/send-email], which is not
    among the sources. The transport is [send(to, htmlBody)],
    fire-and-forget, with no delivery confirmation surfaced upward: the mail
    joins the outbox. *)
Definition sendEmail (to html : string) : M unit :=
  record (SendEmail to html);;
  fun w => (Returned tt, set_outbox (outbox w ++ [(to, html)]) w).

(** ** The resolvers *)

Module UserResolver.

Section Resolvers.

(** The constant of [constants] under which reset tokens are stored. *)
Variable FORGOT_PASSWORD_PREFIX : string.

(** [validateRegister] of [utils/validate-register]: the rule set is not
    among the sources; it answers an error list, or [null]. *)
Variable validateRegister : UsernamePasswordInput.t -> option (list FieldError).

(** [argon2]: the digest of a password under the salt drawn for it, and
    the check of a password against a digest. *)
Variable hash : nat -> string -> string.
Variable verify : string -> string -> bool.

(** [uuid]: the token obtained from the randomness drawn. *)
Variable uuid : nat -> string.

Definition draw : M nat :=
  fun w => (Returned (entropy w), set_entropy (S (entropy w)) w).

Definition argon2_hash (plain : string) : M string :=
  record (Argon2Hash plain);;
  salt <- draw;;
  ret (hash salt plain).

Definition argon2_verify (digest plain : string) : M bool :=
  record (Argon2Verify digest plain);;
  ret (verify digest plain).

Definition v4 : M string :=
  record UuidV4;;
  n <- draw;;
  ret (uuid n).

(** [err.detail] of a caught value; only the engine's errors carry one. *)
Definition exn_detail (err : Exn) : option string :=
  match err with
  | DbExn e => detail e
  | _ => None
  end.

Definition username_taken : FieldError :=
  {| field := "username"; message := "username already taken" |}.

(** [register(options)]. The [try] block ends either in an early [return]
    from the [catch] ([inl]) or with the local [user], which stays
    [undefined] ([inr None]) when the [catch] block falls through. *)
Definition register (options : UsernamePasswordInput.t) : M UserResponse :=
  match validateRegister options with
  | Some errors => ret (response_errors errors)
  | None =>
      hashedPassword <- argon2_hash (UsernamePasswordInput.password options);;
      tried <-
        try_catch
          (row <- knex_insert (UsernamePasswordInput.username options)
                              hashedPassword
                              (UsernamePasswordInput.email options);;
           ret (inr (Some row)))
          (fun err =>
             match exn_detail err with
             | None =>
                 throw (TypeError "Cannot read property 'includes' of undefined")
             | Some d =>
                 if Js.includes d "already exists"
                 then ret (inl (response_errors [username_taken]))
                 else ret (inr None)
             end);;
      match tried with
      | inl response => ret response
      | inr None => throw (TypeError "Cannot read property 'id' of undefined")
      | inr (Some user) =>
          session_set_userId (id user);;
          ret (response_user user)
      end
  end.

(** The [where] clause [login] builds from its first argument. *)
Definition login_query (usernameOrEmail : string) : UserQuery :=
  if Js.includes usernameOrEmail "@"
  then ByEmail usernameOrEmail
  else ByUsername usernameOrEmail.

Definition unknown_account : FieldError :=
  {| field := "usernameOrEmail"; message := "username or email doesn't exist" |}.

Definition incorrect_password : FieldError :=
  {| field := "password"; message := "incorrect password" |}.

(** [login(usernameOrEmail, password)] *)
Definition login (usernameOrEmail pwd : string) : M UserResponse :=
  found <- em_findOne (login_query usernameOrEmail);;
  match found with
  | None => ret (response_errors [unknown_account])
  | Some user =>
      valid <- argon2_verify (password user) pwd;;
      if negb valid then ret (response_errors [incorrect_password])
      else
        session_set_userId (id user);;
        ret (response_user user)
  end.

Definition double_quote : string := String (ascii_of_nat 34) EmptyString.

(** The body of the mail: a link to the change-password page of [token]. *)
Definition reset_link (token : string) : string :=
  "<a href=" +:+ double_quote +:+ "http://localhost:3000/change-password/"
  +:+ token +:+ double_quote +:+ "> reset password </a>".

(** [forgotPassword(email)] *)
Definition forgotPassword (email : string) : M bool :=
  found <- em_findOne (ByEmail email);;
  match found with
  | None => ret true
  | Some user =>
      token <- v4;;
      redis_set (FORGOT_PASSWORD_PREFIX +:+ token)
                (Js.Number_toString (id user))
                "ex"
                (1000 * 60 * 60 * 24 * 3);;
      sendEmail email (reset_link token);;
      ret true
  end.

Definition password_too_short : FieldError :=
  {| field := "newPassword"; message := "length must be greater than 2" |}.

Definition token_expired : FieldError :=
  {| field := "token"; message := "token expired" |}.

Definition user_gone : FieldError :=
  {| field := "token"; message := "user no longer exists" |}.

Definition set_password (digest : string) (u : User) : User :=
  mkUser (id u) (username u) (email u) digest (created_at u) (updated_at u).

(** [changePassword(token, newPassword)]. [!userId] holds of [null] and of
    the empty string. *)
Definition changePassword (token newPassword : string) : M UserResponse :=
  if (String.length newPassword <=? 2)%nat
  then ret (response_errors [password_too_short])
  else
    let redisKey := FORGOT_PASSWORD_PREFIX +:+ token in
    stored <- redis_get redisKey;;
    match stored with
    | None | Some EmptyString => ret (response_errors [token_expired])
    | Some userId =>
        found <- em_findOne (ById (Js.parseInt userId));;
        match found with
        | None => ret (response_errors [user_gone])
        | Some user =>
            digest <- argon2_hash newPassword;;
            let user := set_password digest user in
            em_persistAndFlush user;;
            redis_del redisKey;;
            session_set_userId (id user);;
            ret (response_user user)
        end
    end.

(** The constant of [constants] that names the session cookie. *)
Variable COOKIE_NAME : string.

(** [me()]. [!req.session!.userId] holds of a missing id and of the id 0. *)
Definition me : M (option User) :=
  current <- session_userId;;
  match current with
  | None | Some 0 => ret None
  | Some i => em_findOne (ById (Some i))
  end.

(** [logout()]: the boolean the promise resolves to, and the exchange left. *)
Definition logout (x : Exchange) : bool * Exchange :=
  let '(err, x1) := session_destroy x in
  match err with
  | Some e => (false, console_log e x1)
  | None => (true, clearCookie COOKIE_NAME x1)
  end.

End Resolvers.

End UserResolver.

(** ** Vocabulary of the properties *)

(** The world after one more logged call. *)
Definition logged (e : Event) (w : World) : World := set_log (log w ++ [e]) w.

(** The queries among the calls of a run. *)
Definition lookups (es : list Event) : list UserQuery :=
  flat_map (fun e => match e with EmFindOne q => [q] | _ => [] end) es.

(** The response has one of its two fields, and an error list is not empty. *)
Definition exclusive (r : UserResponse) : bool :=
  match errors r, user r with
  | Some (_ :: _), None => true
  | None, Some _ => true
  | _, _ => false
  end.

(** The error of a failed insert does not speak of a uniqueness violation:
    it carries no detail, or a detail without the words [already exists]. *)
Definition lacks_already_exists (e : DbError) : bool :=
  match detail e with
  | Some d => negb (Js.includes d "already exists")
  | None => true
  end.

(** Three days, in milliseconds. *)
Definition three_days_ms : Z := 3 * 24 * 60 * 60 * 1000.

(** The time an entry of the store has left, in milliseconds. *)
Definition lifetime_left (key : string) (w : World) : option Z :=
  match redis w !! key with
  | Some e => Some (expire_at e - now w)
  | None => None
  end.

(** A decimal digit, and a string made of decimal digits only. *)
Definition is_digit (c : ascii) : bool :=
  match Js.digit_value 10 c with
  | Some _ => true
  | None => false
  end.

Fixpoint all_digits (s : string) : bool :=
  match s with
  | EmptyString => true
  | String c s' => is_digit c && all_digits s'
  end.

(** The table keeps its keys: ids, usernames and emails are each unique, and
    every id is below the next value of the sequence. *)
Definition table_ok (w : World) : Prop :=
  List.NoDup (map id (users w)) /\
  List.NoDup (map username (users w)) /\
  List.NoDup (map email (users w)) /\
  Forall (fun u => id u < next_id w) (users w).



(** ** A sample instance, to run the resolvers on concrete worlds *)

Module Sample.

Definition prefix : string := "forget-password:".

(** A sample rule set: the mail address has an [@], the others are longer
    than two characters. *)
Definition validate (o : UsernamePasswordInput.t) : option (list FieldError) :=
  if negb (Js.includes (UsernamePasswordInput.email o) "@")
  then Some [mkFieldError "email" "invalid email"]
  else if (String.length (UsernamePasswordInput.username o) <=? 2)%nat
  then Some [mkFieldError "username" "length must be greater than 2"]
  else if (String.length (UsernamePasswordInput.password o) <=? 2)%nat
  then Some [mkFieldError "password" "length must be greater than 2"]
  else None.

(** A toy digest (the salt is kept in front) and its check. *)
Definition hash (salt : nat) (plain : string) : string :=
  Js.Number_toString (Z.of_nat salt) +:+ "$" +:+ plain.

Fixpoint after_dollar (s : string) : string :=
  match s with
  | EmptyString => EmptyString
  | String "$" s' => s'
  | String _ s' => after_dollar s'
  end.

Definition verify (digest plain : string) : bool :=
  String.eqb (after_dollar digest) plain.

Definition uuid (n : nat) : string := "token-" +:+ Js.Number_toString (Z.of_nat n).

Definition register := UserResolver.register validate hash.
Definition login := UserResolver.login verify.
Definition forgotPassword := UserResolver.forgotPassword prefix uuid.
Definition changePassword := UserResolver.changePassword prefix hash.

Definition bob : User := mkUser 1 "bob" "bob@example.org" "0$hunter2" 0 0.

(** An empty system, and one where [bob] has registered. *)
Definition empty_world : World :=
  mkWorld [] 1 None ∅ 0 (mkSession None) [] 0 [].

Definition bob_world : World :=
  mkWorld [bob] 2 None ∅ 1000 (mkSession None) [] 1 [].

(** The name of the session cookie, and [logout] with it. *)
Definition cookie : string := "qid".

Definition logout := UserResolver.logout cookie.

End Sample.

(** A lost connection, as a pending fault of the insert. *)
Definition connection_lost : DbError :=
  mkDbError "Connection terminated unexpectedly" (Some "connection lost").

Definition faulty_world : World :=
  mkWorld [Sample.bob] 2 (Some connection_lost) ∅ 1000 (mkSession None) [] 1 [].

(** The world after [forgotPassword] for bob: the token [token-1] is valid. *)
Definition reset_world : World :=
  after (Sample.forgotPassword "bob@example.org") Sample.bob_world.

(** The world after bob has logged in, and two exchanges over it: one whose
    session store works, one whose session store is down. *)
Definition logged_in_world : World :=
  after (Sample.login "bob" "hunter2") Sample.bob_world.

Definition healthy_exchange : Exchange :=
  mkExchange logged_in_world None [] [].

Definition failing_exchange : Exchange :=
  mkExchange logged_in_world (Some "store down") [] [].

(** A table whose one user has the id 0, that user being logged in. *)
Definition zero_world : World :=
  mkWorld [mkUser 0 "root" "root@example.org" "0$toor" 0 0] 1 None ∅ 0
          (mkSession (Some 0)) [] 1 [].

(** A live token for the id 7, which no row has. *)
Definition orphan_token_world : World :=
  mkWorld [Sample.bob] 2 None
          {[ "forget-password:stale" := mkRedisEntry "7" 5000 ]}
          1000 (mkSession None) [] 1 [].

(** A row refused by a check constraint, as a pending fault of the insert:
    an error of the engine that carries a detail. *)
Definition check_violation : DbError :=
  mkDbError "new row violates check constraint"
            (Some "Failing row contains (2, amy, amy@example.org).").

Definition check_fault_world : World :=
  mkWorld [Sample.bob] 2 (Some check_violation) ∅ 1000 (mkSession None) [] 1 [].

(** A pending fault of the insert whose error carries no detail. *)
Definition silent_fault_world : World :=
  mkWorld [Sample.bob] 2 (Some (mkDbError "timeout" None)) ∅ 1000
          (mkSession None) [] 1 [].

(** Amy registers in the empty system. *)
Definition amy_input : UsernamePasswordInput.t :=
  UsernamePasswordInput.mk "amy@example.org" "amy" "secret".

Definition amy : User := mkUser 1 "amy" "amy@example.org" "0$secret" 0 0.

(** Registering with the username [amy@home]. *)
Definition at_input : UsernamePasswordInput.t :=
  UsernamePasswordInput.mk "amy@example.org" "amy@home" "secret".

(** * Properties *)

(** ** Running the monad *)

Lemma bind_returned {A B} (m : M A) (k : A -> M B) w a w' :
  m w = (Returned a, w') -> bind m k w = k a w'.
Proof. intros H. unfold bind. now rewrite H. Qed.

Lemma bind_thrown {A B} (m : M A) (k : A -> M B) w e w' :
  m w = (Thrown e, w') -> bind m k w = (Thrown e, w').
Proof. intros H. unfold bind. now rewrite H. Qed.

Lemma try_catch_returned {A} (m : M A) h w a w' :
  m w = (Returned a, w') -> try_catch m h w = (Returned a, w').
Proof. intros H. unfold try_catch. now rewrite H. Qed.

Lemma try_catch_thrown {A} (m : M A) h w e w' :
  m w = (Thrown e, w') -> try_catch m h w = h e w'.
Proof. intros H. unfold try_catch. now rewrite H. Qed.

Lemma record_run e w : record e w = (Returned tt, logged e w).
Proof. reflexivity. Qed.

Lemma calls_spec {A} (m : M A) w a w' (es : list Event) :
  m w = (a, w') -> log w' = log w ++ es -> calls m w = es.
Proof.
  intros Hm Hlog. unfold calls, after. rewrite Hm. simpl. rewrite Hlog.
  apply drop_app_length.
Qed.

(** ** Equations of the collaborators *)

Lemma em_findOne_run q w :
  q <> ById None ->
  em_findOne q w = (Returned (lookup_user q w), logged (EmFindOne q) w).
Proof.
  intros Hq. unfold em_findOne.
  rewrite (bind_returned _ _ _ _ _ (record_run _ _)).
  destruct q as [[i|]|s|s]; try reflexivity. now contradict Hq.
Qed.

Lemma lookup_user_logged q e w : lookup_user q (logged e w) = lookup_user q w.
Proof. reflexivity. Qed.

Lemma redis_get_run key w :
  redis_get key w = (Returned (live_value key w), logged (RedisGet key) w).
Proof. reflexivity. Qed.

Lemma redis_del_run key w :
  redis_del key w =
  (Returned tt, set_redis (delete key (redis w)) (logged (RedisDel key) w)).
Proof. reflexivity. Qed.

Lemma redis_set_ex_run key val time w :
  0 < time ->
  redis_set key val "ex" time w =
  (Returned tt,
   set_redis (<[key := mkRedisEntry val (now w + time * 1000)]> (redis w))
             (logged (RedisSet key val "ex" time) w)).
Proof.
  intros Ht. unfold redis_set.
  rewrite (bind_returned _ _ _ _ _ (record_run _ _)).
  change (lifetime_ms "ex" time) with (Some (time * 1000)). cbv beta iota.
  destruct (Z.leb_spec time 0); [lia | reflexivity].
Qed.

Lemma session_set_userId_run i w :
  session_set_userId i w =
  (Returned tt, set_session (mkSession (Some i)) (logged (SessionSetUserId i) w)).
Proof. reflexivity. Qed.

Lemma sendEmail_run to html w :
  sendEmail to html w =
  (Returned tt, set_outbox (outbox w ++ [(to, html)]) (logged (SendEmail to html) w)).
Proof. reflexivity. Qed.

Lemma em_persistAndFlush_run u w :
  em_persistAndFlush u w = (Returned tt, logged (EmPersistAndFlush u) w).
Proof. reflexivity. Qed.

(** An entry is live strictly before its expiry and gone from then on. *)
Lemma live_value_unknown key w : redis w !! key = None -> live_value key w = None.
Proof. intros H. unfold live_value. now rewrite H. Qed.

Lemma live_value_expired key e w :
  redis w !! key = Some e -> expire_at e <= now w -> live_value key w = None.
Proof.
  intros H Hexp. unfold live_value. rewrite H.
  destruct (Z.ltb_spec (now w) (expire_at e)); [lia | reflexivity].
Qed.

Lemma live_value_live key e w :
  redis w !! key = Some e -> now w < expire_at e ->
  live_value key w = Some (value e).
Proof.
  intros H Hexp. unfold live_value. rewrite H.
  destruct (Z.ltb_spec (now w) (expire_at e)); [reflexivity | lia].
Qed.

(** ** [includes] is the substring test *)

Lemma prefix_empty s : String.prefix "" s = true.
Proof. now destruct s. Qed.

Lemma prefix_append t post : String.prefix t (t +:+ post) = true.
Proof.
  induction t as [|c t IH]; simpl.
  - apply prefix_empty.
  - destruct (ascii_dec c c); [exact IH | congruence].
Qed.

Lemma prefix_inv t s :
  String.prefix t s = true -> exists post, s = t +:+ post.
Proof.
  revert s. induction t as [|c t IH]; intros s H.
  - now exists s.
  - destruct s as [|c' s]; simpl in H; [discriminate|].
    destruct (ascii_dec c c') as [<-|]; [|discriminate].
    destruct (IH _ H) as [post ->]. now exists post.
Qed.

Lemma includes_append pre t post : Js.includes (pre +:+ t +:+ post) t = true.
Proof.
  induction pre as [|c pre IH]; simpl.
  - destruct t; simpl.
    + now destruct post.
    + rewrite (proj2 (orb_true_iff _ _)); [reflexivity | left].
      destruct (ascii_dec a a); [apply prefix_append | congruence].
  - rewrite IH. apply orb_true_r.
Qed.

Lemma includes_inv s t :
  Js.includes s t = true -> exists pre post, s = pre +:+ t +:+ post.
Proof.
  induction s as [|c s IH]; simpl; intros H.
  - destruct t; [now exists "", "" | discriminate].
  - apply orb_true_iff in H as [H|H].
    + destruct (prefix_inv t (String c s) H) as [post ->]. now exists "", post.
    + destruct (IH H) as (pre & post & ->). now exists (String c pre), post.
Qed.

(** For a one-character search string: the character occurs in [s]. *)
Lemma includes_char s c :
  Js.includes s (String c "") = true <-> In c (list_ascii_of_string s).
Proof.
  induction s as [|c' s IH]; simpl.
  - split; [discriminate | tauto].
  - rewrite orb_true_iff, IH. destruct (ascii_dec c c') as [->|Hne].
    + rewrite prefix_empty. tauto.
    + split.
      * intros [?|?]; [discriminate | tauto].
      * intros [?|?]; [|tauto]. now subst.
Qed.

Lemma append_assoc (a b c : string) : (a +:+ b) +:+ c = a +:+ (b +:+ c).
Proof.
  induction a as [|x a IH]; [reflexivity|].
  change (String x ((a +:+ b) +:+ c) = String x (a +:+ b +:+ c)).
  now rewrite IH.
Qed.

(** The detail of a unique violation always holds the words the [catch]
    block of [register] looks for. *)
Lemma unique_violation_detail column val :
  exists d, detail (unique_violation column val) = Some d /\
            Js.includes d "already exists" = true.
Proof.
  eexists. split; [reflexivity|].
  set (pre := "Key (" +:+ column +:+ ")=(" +:+ val +:+ ") ").
  replace ("Key (" +:+ column +:+ ")=(" +:+ val +:+ ") already exists.")
    with (pre +:+ "already exists" +:+ ".").
  - apply includes_append.
  - unfold pre. now rewrite !append_assoc.
Qed.

(** ** An id written to the store reads back as the same id *)

Lemma digit_value_digit_char d :
  0 <= d < 10 -> Js.digit_value 10 (Js.digit_char d) = Some d.
Proof.
  intros Hd.
  assert (H : d = 0 \/ d = 1 \/ d = 2 \/ d = 3 \/ d = 4 \/
              d = 5 \/ d = 6 \/ d = 7 \/ d = 8 \/ d = 9) by lia.
  repeat (destruct H as [-> | H]; [reflexivity|]). now subst.
Qed.

Lemma parse_digits_fuel (f : nat) :
  forall m acc,
    0 <= m < 2 ^ Z.of_nat (S f) ->
    Js.parse_digits 10 None (Js.digits_fuel (S f) m acc) =
    Js.parse_digits 10 (Some m) acc.
Proof.
  induction f as [|f IH]; intros m acc Hm.
  - change (2 ^ Z.of_nat 1) with 2 in Hm.
    change (Js.digits_fuel 1 m acc) with
      (if m <? 10 then String (Js.digit_char (m mod 10)) acc
       else String (Js.digit_char (m mod 10)) acc).
    destruct (m <? 10); simpl;
      rewrite digit_value_digit_char by (apply Z.mod_pos_bound; lia);
      rewrite Z.mod_small by lia; reflexivity.
  - change (Js.digits_fuel (S (S f)) m acc) with
      (if m <? 10 then String (Js.digit_char (m mod 10)) acc
       else Js.digits_fuel (S f) (m / 10) (String (Js.digit_char (m mod 10)) acc)).
    destruct (Z.ltb_spec m 10).
    + simpl. rewrite digit_value_digit_char by (apply Z.mod_pos_bound; lia).
      rewrite Z.mod_small by lia. reflexivity.
    + rewrite IH.
      * simpl. rewrite digit_value_digit_char by (apply Z.mod_pos_bound; lia).
        simpl default. rewrite <- Z.div_mod by lia. reflexivity.
      * rewrite Nat2Z.inj_succ, Z.pow_succ_r in Hm by lia.
        split; [apply Z.div_pos; lia|].
        apply Z.div_lt_upper_bound; lia.
Qed.

Lemma digits_fuel_all_digits (f : nat) :
  forall m acc,
    0 <= m -> all_digits acc = true ->
    all_digits (Js.digits_fuel f m acc) = true.
Proof.
  induction f as [|f IH]; intros m acc Hm Hacc; [exact Hacc|].
  assert (Hd : all_digits (String (Js.digit_char (m mod 10)) acc) = true).
  { simpl. unfold is_digit.
    rewrite digit_value_digit_char by (apply Z.mod_pos_bound; lia).
    exact Hacc. }
  simpl. destruct (m <? 10); [exact Hd|].
  apply IH; [apply Z.div_pos; lia | exact Hd].
Qed.

Lemma digits_fuel_nonempty f m acc : Js.digits_fuel (S f) m acc <> "".
Proof.
  revert m acc. induction f as [|f IH]; intros m acc.
  - simpl. now destruct (m <? 10).
  - change (Js.digits_fuel (S (S f)) m acc) with
      (if m <? 10 then String (Js.digit_char (m mod 10)) acc
       else Js.digits_fuel (S f) (m / 10) (String (Js.digit_char (m mod 10)) acc)).
    destruct (m <? 10); [discriminate | apply IH].
Qed.

Lemma is_digit_cases c :
  is_digit c = true ->
  c = "0"%char \/ c = "1"%char \/ c = "2"%char \/ c = "3"%char \/ c = "4"%char \/
  c = "5"%char \/ c = "6"%char \/ c = "7"%char \/ c = "8"%char \/ c = "9"%char.
Proof.
  destruct c as [[] [] [] [] [] [] [] []]; vm_compute; intros H;
    try discriminate H; tauto.
Qed.

(** On a non-empty string of decimal digits, [parseInt] reads the number in
    radix 10; behind a minus sign, its opposite. *)
Lemma parseInt_decimal s :
  s <> "" -> all_digits s = true ->
  Js.parseInt s = Js.parse_digits 10 None s /\
  Js.parseInt (String "-" s) =
    match Js.parse_digits 10 None s with
    | Some n => Some (- n)
    | None => None
    end.
Proof.
  intros Hne Hall. destruct s as [|c1 r]; [congruence|]. clear Hne.
  simpl in Hall. apply andb_true_iff in Hall as [Hc1 Hr].
  assert (Hone : forall o : option Z,
            match o with Some n => Some (1 * n) | None => None end = o).
  { intros [n|]; [|reflexivity]. now destruct n. }
  assert (Hopp : forall o : option Z,
            match o with Some n => Some (-1 * n) | None => None end =
            match o with Some n => Some (- n) | None => None end).
  { intros [n|]; [|reflexivity]. now destruct n. }
  destruct (is_digit_cases _ Hc1)
    as [-> | [-> | [-> | [-> | [-> | [-> | [-> | [-> | [-> | ->]]]]]]]]];
    try (split; [apply Hone | apply Hopp]).
  destruct r as [|c2 r]; [split; reflexivity|].
  simpl in Hr. apply andb_true_iff in Hr as [Hc2 _].
  destruct (is_digit_cases _ Hc2)
    as [-> | [-> | [-> | [-> | [-> | [-> | [-> | [-> | [-> | ->]]]]]]]]];
    (split; [apply Hone | apply Hopp]).
Qed.

Lemma parseInt_digits m :
  0 <= m ->
  let s := Js.digits_fuel (S (Z.to_nat (Z.log2 m))) m "" in
  Js.parseInt s = Some m /\ Js.parseInt (String "-" s) = Some (- m).
Proof.
  intros Hm s.
  assert (Hparse : Js.parse_digits 10 None s = Some m).
  { subst s. rewrite parse_digits_fuel; [reflexivity|].
    split; [exact Hm|].
    rewrite Nat2Z.inj_succ, Z2Nat.id by apply Z.log2_nonneg.
    destruct (Z.eq_dec m 0) as [->|]; [reflexivity|].
    apply Z.log2_spec. lia. }
  destruct (parseInt_decimal s) as [H1 H2].
  - apply digits_fuel_nonempty.
  - now apply digits_fuel_all_digits.
  - now rewrite H1, H2, Hparse.
Qed.

(** [parseInt(String(n)) = n] for every integer [n]. *)
Theorem parseInt_Number_toString (n : Z) :
  Js.parseInt (Js.Number_toString n) = Some n.
Proof.
  unfold Js.Number_toString. destruct (Z.ltb_spec n 0).
  - destruct (parseInt_digits (- n)) as [_ H2]; [lia|].
    rewrite H2. f_equal. lia.
  - now destruct (parseInt_digits n) as [H1 _].
Qed.

(** ** The resolvers, run *)

Section Properties.

Variable FORGOT_PASSWORD_PREFIX : string.
Variable validateRegister : UsernamePasswordInput.t -> option (list FieldError).
Variable hash : nat -> string -> string.
Variable verify : string -> string -> bool.
Variable uuid : nat -> string.

Import UserResolver.

Abbreviation register := (UserResolver.register validateRegister hash).
Abbreviation login := (UserResolver.login verify).
Abbreviation forgotPassword := (UserResolver.forgotPassword FORGOT_PASSWORD_PREFIX uuid).
Abbreviation changePassword := (UserResolver.changePassword FORGOT_PASSWORD_PREFIX hash).

Lemma login_query_not_NaN s : login_query s <> ById None.
Proof. unfold login_query. now destruct (Js.includes s "@"). Qed.

Lemma argon2_verify_run digest plain w :
  argon2_verify verify digest plain w =
  (Returned (verify digest plain), logged (Argon2Verify digest plain) w).
Proof. reflexivity. Qed.

Lemma argon2_hash_run plain w :
  argon2_hash hash plain w =
  (Returned (hash (entropy w) plain),
   set_entropy (S (entropy w)) (logged (Argon2Hash plain) w)).
Proof. reflexivity. Qed.

Lemma v4_run w :
  v4 uuid w =
  (Returned (uuid (entropy w)), set_entropy (S (entropy w)) (logged UuidV4 w)).
Proof. reflexivity. Qed.

(** [login], branch by branch. *)
Lemma login_run s pwd w :
  login s pwd w =
  let w1 := logged (EmFindOne (login_query s)) w in
  match lookup_user (login_query s) w with
  | None => (Returned (response_errors [unknown_account]), w1)
  | Some u =>
      let w2 := logged (Argon2Verify (password u) pwd) w1 in
      if verify (password u) pwd
      then (Returned (response_user u),
            set_session (mkSession (Some (id u)))
                        (logged (SessionSetUserId (id u)) w2))
      else (Returned (response_errors [incorrect_password]), w2)
  end.
Proof.
  unfold UserResolver.login.
  rewrite (bind_returned _ _ _ _ _ (em_findOne_run _ w (login_query_not_NaN s))).
  destruct (lookup_user (login_query s) w) as [u|]; [|reflexivity].
  cbv zeta.
  rewrite (bind_returned _ _ _ _ _ (argon2_verify_run _ _ _)).
  destruct (verify (password u) pwd); reflexivity.
Qed.

(** C8. When the validation of the input answers an error list, [register]
    returns that list and nothing else happens: the world, log included,
    is the one it started from (no digest computed, no row inserted, no
    session write). *)
Theorem register_invalid_input_no_effect
    (w : World) (options : UsernamePasswordInput.t) (es : list FieldError) :
  validateRegister options = Some es ->
  register options w = (Returned (response_errors es), w) /\
  calls (register options) w = [].
Proof.
  intros Hv. assert (Hrun : register options w = (Returned (response_errors es), w)).
  { unfold UserResolver.register. now rewrite Hv. }
  split; [exact Hrun|].
  apply (calls_spec _ _ _ _ _ Hrun). now rewrite app_nil_r.
Qed.

(** C7. When [newPassword] has at most two characters, [changePassword]
    returns the one error on field [newPassword] and makes no call at all:
    no read of the token store, no lookup, no write; the world is
    unchanged. *)
Theorem changePassword_short_password_no_effect
    (w : World) (token newPassword : string) :
  (String.length newPassword <= 2)%nat ->
  changePassword token newPassword w =
    (Returned (response_errors [mkFieldError "newPassword" "length must be greater than 2"]), w) /\
  calls (changePassword token newPassword) w = [].
Proof.
  intros Hlen.
  assert (Hrun : changePassword token newPassword w =
                 (Returned (response_errors [password_too_short]), w)).
  { unfold UserResolver.changePassword.
    destruct (Nat.leb_spec (String.length newPassword) 2); [reflexivity | lia]. }
  split; [exact Hrun|].
  apply (calls_spec _ _ _ _ _ Hrun). now rewrite app_nil_r.
Qed.

(** C5. [login] makes exactly one lookup: by email when the first argument
    holds the character [@], by username when it does not; and when that
    lookup finds no row it returns the one error on field
    [usernameOrEmail]. *)
Theorem login_lookup_by_email_or_username
    (w : World) (usernameOrEmail pwd : string) :
  (In "@"%char (list_ascii_of_string usernameOrEmail) ->
   lookups (calls (login usernameOrEmail pwd) w) = [ByEmail usernameOrEmail]) /\
  (~ In "@"%char (list_ascii_of_string usernameOrEmail) ->
   lookups (calls (login usernameOrEmail pwd) w) = [ByUsername usernameOrEmail]) /\
  (lookup_user (login_query usernameOrEmail) w = None ->
   result (login usernameOrEmail pwd) w =
     Returned (response_errors
       [mkFieldError "usernameOrEmail" "username or email doesn't exist"])).
Proof.
  assert (Hq : lookups (calls (login usernameOrEmail pwd) w) =
               [login_query usernameOrEmail]).
  { pose proof (login_run usernameOrEmail pwd w) as Hrun. cbv zeta in Hrun.
    destruct (lookup_user (login_query usernameOrEmail) w) as [u|].
    - destruct (verify (password u) pwd);
        erewrite calls_spec; [| exact Hrun | simpl; rewrite <- !app_assoc; reflexivity
                              | | exact Hrun | simpl; rewrite <- !app_assoc; reflexivity ];
        reflexivity.
    - erewrite calls_spec; [| exact Hrun | reflexivity ]. reflexivity. }
  split; [|split].
  - intros Hin. rewrite Hq. unfold login_query.
    now rewrite (proj2 (includes_char _ _) Hin).
  - intros Hnin. rewrite Hq. unfold login_query.
    destruct (Js.includes usernameOrEmail "@") eqn:E; [|reflexivity].
    now apply includes_char in E.
  - intros Hnone. unfold result. rewrite login_run, Hnone. reflexivity.
Qed.

(** C6. When the lookup of [login] finds a user: if the password does not
    verify against the stored digest, [login] returns the one error on
    field [password] and the session (indeed every store) is as before;
    if it verifies, the session holds the user's id and the user is
    returned. *)
Theorem login_password_check
    (w : World) (usernameOrEmail pwd : string) (u : User) :
  lookup_user (login_query usernameOrEmail) w = Some u ->
  let w' := after (login usernameOrEmail pwd) w in
  if verify (password u) pwd
  then result (login usernameOrEmail pwd) w = Returned (response_user u) /\
       session w' = mkSession (Some (id u))
  else result (login usernameOrEmail pwd) w =
         Returned (response_errors [mkFieldError "password" "incorrect password"]) /\
       session w' = session w /\
       set_log (log w) w' = w.
Proof.
  intros Hu w'. subst w'. unfold result, after.
  rewrite login_run, Hu. cbv zeta.
  destruct (verify (password u) pwd); simpl; [split; reflexivity|].
  repeat split. now destruct w.
Qed.

(** [forgotPassword], branch by branch. *)
Lemma forgotPassword_run mail w :
  forgotPassword mail w =
  let w1 := logged (EmFindOne (ByEmail mail)) w in
  match lookup_user (ByEmail mail) w with
  | None => (Returned true, w1)
  | Some u =>
      let token := uuid (entropy w) in
      let key := FORGOT_PASSWORD_PREFIX +:+ token in
      let val := Js.Number_toString (id u) in
      let time := 1000 * 60 * 60 * 24 * 3 in
      let w2 := set_entropy (S (entropy w)) (logged UuidV4 w1) in
      let w3 :=
        set_redis (<[key := mkRedisEntry val (now w + time * 1000)]> (redis w))
                  (logged (RedisSet key val "ex" time) w2) in
      (Returned true,
       set_outbox (outbox w ++ [(mail, reset_link token)])
                  (logged (SendEmail mail (reset_link token)) w3))
  end.
Proof.
  unfold UserResolver.forgotPassword.
  rewrite (bind_returned _ _ _ _ _ (em_findOne_run (ByEmail mail) w ltac:(discriminate))).
  destruct (lookup_user (ByEmail mail) w) as [u|]; [|reflexivity].
  cbv zeta.
  rewrite (bind_returned _ _ _ _ _ (v4_run _)).
  erewrite bind_returned; [|apply redis_set_ex_run; reflexivity].
  erewrite bind_returned; [|apply sendEmail_run].
  reflexivity.
Qed.

(** C2. [forgotPassword] returns [true] for every email. When no user has the
    email, its only call is the lookup: the token store and the outbox are
    as before. When a user has it, the token store gains an entry for the
    fresh token, holding the user's id, and the outbox gains the mail with
    the reset link. *)
Theorem forgotPassword_true_and_effects_only_on_match
    (w : World) (mail : string) :
  let w' := after (forgotPassword mail) w in
  result (forgotPassword mail) w = Returned true /\
  match lookup_user (ByEmail mail) w with
  | None =>
      calls (forgotPassword mail) w = [EmFindOne (ByEmail mail)] /\
      redis w' = redis w /\
      outbox w' = outbox w
  | Some u =>
      let token := uuid (entropy w) in
      let key := FORGOT_PASSWORD_PREFIX +:+ token in
      let val := Js.Number_toString (id u) in
      calls (forgotPassword mail) w =
        [EmFindOne (ByEmail mail); UuidV4;
         RedisSet key val "ex" (1000 * 60 * 60 * 24 * 3);
         SendEmail mail (reset_link token)] /\
      (exists e, redis w' = <[key := e]> (redis w) /\ value e = val) /\
      outbox w' = outbox w ++ [(mail, reset_link token)]
  end.
Proof.
  intros w'. subst w'. unfold result, after.
  pose proof (forgotPassword_run mail w) as Hrun. cbv zeta in Hrun.
  destruct (lookup_user (ByEmail mail) w) as [u|].
  - cbv zeta. split; [now rewrite Hrun|]. split; [|split].
    + apply (calls_spec _ _ _ _ _ Hrun). simpl. now rewrite <- !app_assoc.
    + rewrite Hrun. eexists. split; reflexivity.
    + now rewrite Hrun.
  - split; [now rewrite Hrun|]. split; [|now rewrite Hrun].
    apply (calls_spec _ _ _ _ _ Hrun). reflexivity.
Qed.

(** C1. For an email that matches a user, the entry [forgotPassword] stores
    for the token does not live three days but a thousand times as long:
    the lifetime passed is the number of milliseconds in three days, and
    the store counts it in seconds. The token is still redeemable at any
    instant before that, four days later for one. *)
Theorem forgotPassword_lifetime_is_not_three_days
    (w : World) (mail : string) (u : User) :
  lookup_user (ByEmail mail) w = Some u ->
  let w' := after (forgotPassword mail) w in
  let key := FORGOT_PASSWORD_PREFIX +:+ uuid (entropy w) in
  lifetime_left key w' = Some (1000 * three_days_ms) /\
  lifetime_left key w' <> Some three_days_ms /\
  forall d, 0 <= d < 1000 * three_days_ms ->
            live_value key (elapse d w') = Some (Js.Number_toString (id u)).
Proof.
  intros Hu w' key. subst w' key. unfold after.
  rewrite forgotPassword_run, Hu. cbv zeta.
  unfold lifetime_left, live_value, elapse. simpl.
  rewrite lookup_insert_eq. simpl.
  split; [|split].
  - f_equal. unfold three_days_ms. lia.
  - intros [=H]. unfold three_days_ms in H. lia.
  - intros d Hd. unfold three_days_ms in Hd.
    destruct (Z.ltb_spec (now w + d) (now w + 1000 * 60 * 60 * 24 * 3 * 1000));
      [reflexivity | lia].
Qed.

(** [register], branch by branch. *)
Lemma register_run options w :
  register options w =
  match validateRegister options with
  | Some es => (Returned (response_errors es), w)
  | None =>
      let pwd := UsernamePasswordInput.password options in
      let digest := hash (entropy w) pwd in
      let w1 := set_entropy (S (entropy w)) (logged (Argon2Hash pwd) w) in
      match knex_insert (UsernamePasswordInput.username options) digest
                        (UsernamePasswordInput.email options) w1 with
      | (Returned row, w2) =>
          (Returned (response_user row),
           set_session (mkSession (Some (id row)))
                       (logged (SessionSetUserId (id row)) w2))
      | (Thrown err, w2) =>
          match exn_detail err with
          | None =>
              (Thrown (TypeError "Cannot read property 'includes' of undefined"), w2)
          | Some d =>
              if Js.includes d "already exists"
              then (Returned (response_errors [username_taken]), w2)
              else (Thrown (TypeError "Cannot read property 'id' of undefined"), w2)
          end
      end
  end.
Proof.
  unfold UserResolver.register.
  destruct (validateRegister options); [reflexivity|].
  rewrite (bind_returned _ _ _ _ _ (argon2_hash_run _ _)). cbv zeta.
  unfold bind at 1. unfold try_catch. unfold bind at 1.
  destruct (knex_insert _ _ _ _) as [[row|err] w2]; [reflexivity|].
  destruct (exn_detail err) as [d|]; [|reflexivity].
  destruct (Js.includes d "already exists"); reflexivity.
Qed.

(** A rejected insert leaves the table and the session alone. *)
Lemma knex_insert_thrown uname pwd mail w e w' :
  knex_insert uname pwd mail w = (Thrown e, w') ->
  users w' = users w /\ session w' = session w.
Proof.
  unfold knex_insert. rewrite (bind_returned _ _ _ _ _ (record_run _ _)).
  simpl. destruct (insert_fault w); [now intros [= _ <-]|].
  destruct (existsb _ _); [now intros [= _ <-]|].
  destruct (existsb _ _); [now intros [= _ <-] | discriminate].
Qed.

(** A unique violation caught by [register]: the one error on [username]. *)
Lemma register_caught_unique_violation
    (w w2 : World) (options : UsernamePasswordInput.t) (column val : string) :
  validateRegister options = None ->
  knex_insert (UsernamePasswordInput.username options)
              (hash (entropy w) (UsernamePasswordInput.password options))
              (UsernamePasswordInput.email options)
              (after (argon2_hash hash (UsernamePasswordInput.password options)) w)
    = (Thrown (DbExn (unique_violation column val)), w2) ->
  register options w = (Returned (response_errors [username_taken]), w2).
Proof.
  intros Hv Hins. rewrite register_run, Hv. cbv zeta.
  unfold after in Hins. rewrite argon2_hash_run in Hins. simpl in Hins.
  rewrite Hins.
  destruct (unique_violation_detail column val) as (d & Hd & Hinc).
  change (exn_detail (DbExn (unique_violation column val)))
    with (detail (unique_violation column val)).
  now rewrite Hd, Hinc.
Qed.

(** *** Registering the same username twice *)

Lemma knex_insert_returned uname pwd mail w row w' :
  knex_insert uname pwd mail w = (Returned row, w') ->
  insert_fault w' = None /\ users w' = users w ++ [row] /\ username row = uname.
Proof.
  unfold knex_insert. rewrite (bind_returned _ _ _ _ _ (record_run _ _)).
  simpl. destruct (insert_fault w) eqn:Hf; [discriminate|].
  destruct (existsb _ _); [discriminate|].
  destruct (existsb _ _); [discriminate|].
  intros [= <- <-]. simpl. now rewrite Hf.
Qed.

Lemma knex_insert_duplicate_username uname pwd mail w :
  insert_fault w = None ->
  existsb (fun u => String.eqb (username u) uname) (users w) = true ->
  exists w', knex_insert uname pwd mail w =
             (Thrown (DbExn (unique_violation "username" uname)), w').
Proof.
  intros Hf Hdup. unfold knex_insert.
  rewrite (bind_returned _ _ _ _ _ (record_run _ _)). simpl.
  rewrite Hf, Hdup. now eexists.
Qed.

(** After a registration that returned a user, a registration that passes
    validation with the same username returns the one error on [username]. *)
Lemma register_twice_same_username
    (w : World) (first second : UsernamePasswordInput.t) (u : User) :
  validateRegister first = None ->
  validateRegister second = None ->
  UsernamePasswordInput.username second = UsernamePasswordInput.username first ->
  result (register first) w = Returned (response_user u) ->
  result (register second) (after (register first) w) =
    Returned (response_errors [username_taken]).
Proof.
  intros Hv1 Hv2 Hname Hfirst. unfold result, after in *.
  pose proof (register_run first w) as Hrun. rewrite Hv1 in Hrun.
  cbv zeta in Hrun.
  destruct (knex_insert _ _ _ _) as [[row|err] w2] eqn:Hins in Hrun;
    rewrite Hrun in Hfirst |- *; clear Hrun; simpl in Hfirst.
  - clear Hfirst. apply knex_insert_returned in Hins as (Hf & Hus & Hrow).
    rewrite register_run, Hv2. cbv zeta.
    match goal with
    | |- context [knex_insert ?a ?b ?c ?w0] =>
        destruct (knex_insert_duplicate_username a b c w0) as [w3 Hdup]
    end.
    + exact Hf.
    + simpl. rewrite Hus, existsb_app. simpl.
      rewrite Hrow, Hname, String.eqb_refl. now rewrite orb_true_r.
    + simpl in Hdup |- *. rewrite Hdup.
      destruct (unique_violation_detail "username"
                  (UsernamePasswordInput.username second)) as (d & Hd & Hinc).
      change (exn_detail (DbExn (unique_violation "username"
                (UsernamePasswordInput.username second))))
        with (detail (unique_violation "username"
                (UsernamePasswordInput.username second))).
      now rewrite Hd, Hinc.
  - destruct (exn_detail err) as [d|]; [|discriminate].
    destruct (Js.includes d "already exists"); discriminate.
Qed.

(** C4. When the insert of [register] is rejected by a uniqueness-constraint
    violation (of either unique column), [register] returns exactly one
    error: field [username], message [username already taken]. In
    particular, after a registration that returned a user, a second
    registration with the same username returns that single error. *)
Theorem register_unique_violation_username_taken :
  (forall (w w2 : World) (options : UsernamePasswordInput.t) (column val : string),
     validateRegister options = None ->
     knex_insert (UsernamePasswordInput.username options)
                 (hash (entropy w) (UsernamePasswordInput.password options))
                 (UsernamePasswordInput.email options)
                 (after (argon2_hash hash (UsernamePasswordInput.password options)) w)
       = (Thrown (DbExn (unique_violation column val)), w2) ->
     result (register options) w =
       Returned (response_errors
                   [mkFieldError "username" "username already taken"])) /\
  (forall (w : World) (first second : UsernamePasswordInput.t) (u : User),
     validateRegister first = None ->
     validateRegister second = None ->
     UsernamePasswordInput.username second = UsernamePasswordInput.username first ->
     result (register first) w = Returned (response_user u) ->
     result (register second) (after (register first) w) =
       Returned (response_errors
                   [mkFieldError "username" "username already taken"])).
Proof.
  split.
  - intros w w2 options column val Hv Hins. unfold result.
    now rewrite (register_caught_unique_violation _ _ _ _ _ Hv Hins).
  - intros w first second u. apply register_twice_same_username.
Qed.

(** C9, amended. When the insert of [register] is rejected with an error
    that does not speak of a uniqueness violation, [register] returns
    neither an error list nor a user: it ends in a [TypeError], the session
    is not written and no row is added. With a detail that lacks the words
    [already exists], the [catch] block falls through, the local [user] is
    undefined and reading its [id] throws; with no detail at all, reading
    [includes] of the detail throws inside the [catch] block. *)
Theorem register_other_insert_failure_throws
    (w w2 : World) (options : UsernamePasswordInput.t) (e : DbError) :
  validateRegister options = None ->
  knex_insert (UsernamePasswordInput.username options)
              (hash (entropy w) (UsernamePasswordInput.password options))
              (UsernamePasswordInput.email options)
              (after (argon2_hash hash (UsernamePasswordInput.password options)) w)
    = (Thrown (DbExn e), w2) ->
  lacks_already_exists e = true ->
  result (register options) w =
    Thrown (TypeError
              match detail e with
              | Some _ => "Cannot read property 'id' of undefined"
              | None => "Cannot read property 'includes' of undefined"
              end) /\
  (forall r, result (register options) w <> Returned r) /\
  session (after (register options) w) = session w /\
  users (after (register options) w) = users w.
Proof.
  intros Hv Hins Hlacks.
  assert (Hrun : register options w =
                 (Thrown (TypeError
                            match detail e with
                            | Some _ => "Cannot read property 'id' of undefined"
                            | None => "Cannot read property 'includes' of undefined"
                            end), w2)).
  { rewrite register_run, Hv. cbv zeta.
    unfold after in Hins. rewrite argon2_hash_run in Hins. simpl in Hins.
    rewrite Hins. change (exn_detail (DbExn e)) with (detail e).
    unfold lacks_already_exists in Hlacks.
    destruct (detail e) as [d|]; [|reflexivity].
    apply negb_true_iff in Hlacks. now rewrite Hlacks. }
  unfold result, after. rewrite Hrun. simpl.
  unfold after in Hins. rewrite argon2_hash_run in Hins. simpl in Hins.
  apply knex_insert_thrown in Hins as [Hu Hs].
  split; [reflexivity|]. split; [discriminate|]. split; [exact Hs | exact Hu].
Qed.

(** Replacing the row of an id keeps it where a lookup by that id finds it. *)
(** [changePassword], branch by branch. *)
Lemma changePassword_run token newPassword w :
  changePassword token newPassword w =
  if (String.length newPassword <=? 2)%nat
  then (Returned (response_errors [password_too_short]), w)
  else
    let key := FORGOT_PASSWORD_PREFIX +:+ token in
    let w1 := logged (RedisGet key) w in
    match live_value key w with
    | None | Some EmptyString => (Returned (response_errors [token_expired]), w1)
    | Some v =>
        let w2 := logged (EmFindOne (ById (Js.parseInt v))) w1 in
        match Js.parseInt v with
        | None =>
            (Thrown (DbExn (mkDbError "invalid input syntax for type integer" None)),
             w2)
        | Some i =>
            match lookup_user (ById (Some i)) w with
            | None => (Returned (response_errors [user_gone]), w2)
            | Some u =>
                let u' := set_password (hash (entropy w) newPassword) u in
                let w3 := set_entropy (S (entropy w))
                                      (logged (Argon2Hash newPassword) w2) in
                let w4 := logged (EmPersistAndFlush u') w3 in
                let w5 := set_redis (delete key (redis w)) (logged (RedisDel key) w4) in
                (Returned (response_user u'),
                 set_session (mkSession (Some (id u)))
                             (logged (SessionSetUserId (id u)) w5))
            end
        end
    end.
Proof.
  unfold UserResolver.changePassword.
  destruct (String.length newPassword <=? 2)%nat; [reflexivity|].
  cbv zeta. rewrite (bind_returned _ _ _ _ _ (redis_get_run _ _)).
  destruct (live_value _ w) as [[|c v]|]; try reflexivity.
  destruct (Js.parseInt (String c v)) as [i|]; [|reflexivity].
  rewrite (bind_returned _ _ _ _ _ (em_findOne_run (ById (Some i)) _ ltac:(discriminate))).
  rewrite !lookup_user_logged.
  destruct (lookup_user (ById (Some i)) w) as [u|]; [|reflexivity].
  rewrite (bind_returned _ _ _ _ _ (argon2_hash_run _ _)).
  rewrite (bind_returned _ _ _ _ _ (em_persistAndFlush_run _ _)).
  rewrite (bind_returned _ _ _ _ _ (redis_del_run _ _)).
  rewrite (bind_returned _ _ _ _ _ (session_set_userId_run _ _)).
  reflexivity.
Qed.

(** A token the store does not hold, or holds past its expiry, is answered
    with the one error [token expired]. *)
Lemma changePassword_no_token token newPassword w :
  (2 < String.length newPassword)%nat ->
  live_value (FORGOT_PASSWORD_PREFIX +:+ token) w = None ->
  result (changePassword token newPassword) w =
    Returned (response_errors [token_expired]).
Proof.
  intros Hlen Hnone. unfold result. rewrite changePassword_run.
  destruct (Nat.leb_spec (String.length newPassword) 2); [lia|].
  cbv zeta. now rewrite Hnone.
Qed.

(** The run of [changePassword] on a valid token: every call it makes, in
    order, and the world it leaves. *)
Lemma changePassword_valid_token_run token newPassword w v i u :
  (2 < String.length newPassword)%nat ->
  live_value (FORGOT_PASSWORD_PREFIX +:+ token) w = Some v ->
  Js.parseInt v = Some i ->
  lookup_user (ById (Some i)) w = Some u ->
  let key := FORGOT_PASSWORD_PREFIX +:+ token in
  let u' := set_password (hash (entropy w) newPassword) u in
  changePassword token newPassword w =
    (Returned (response_user u'),
     set_session (mkSession (Some (id u)))
       (logged (SessionSetUserId (id u))
          (set_redis (delete key (redis w))
             (logged (RedisDel key)
                (logged (EmPersistAndFlush u')
                   (set_entropy (S (entropy w))
                      (logged (Argon2Hash newPassword)
                         (logged (EmFindOne (ById (Some i)))
                            (logged (RedisGet key) w))))))))).
Proof.
  intros Hlen Hlive Hparse Hu key u'. rewrite changePassword_run.
  destruct (Nat.leb_spec (String.length newPassword) 2); [lia|].
  cbv zeta. unfold key. rewrite Hlive.
  destruct v as [|c v]; [discriminate|].
  rewrite Hparse, Hu. reflexivity.
Qed.

(** C3. A valid reset token is consumed exactly once, but the new password
    is not in the table when the call returns. Let the store hold,
    unexpired, a value for the token that reads as the id of an existing
    user, and let the new password be longer than two characters. The call
    of [changePassword] returns the user with the new digest, deletes the
    token from the store and writes the user's id into the session; the
    flush of the new digest is started (it is the fourth of the six calls)
    and not awaited, so that on return the table is the one the call
    started from and the id still finds the row with the old digest. A
    second call right after, with the same token, returns the one error on
    field [token]: the very response given for a token that is unknown to
    the store or has expired. *)
Theorem changePassword_token_single_use
    (w : World) (token newPassword again : string) (v : string) (i : Z) (u : User) :
  (2 < String.length newPassword)%nat ->
  (2 < String.length again)%nat ->
  live_value (FORGOT_PASSWORD_PREFIX +:+ token) w = Some v ->
  Js.parseInt v = Some i ->
  lookup_user (ById (Some i)) w = Some u ->
  let key := FORGOT_PASSWORD_PREFIX +:+ token in
  let u' := set_password (hash (entropy w) newPassword) u in
  let w' := after (changePassword token newPassword) w in
  result (changePassword token newPassword) w = Returned (response_user u') /\
  password u' = hash (entropy w) newPassword /\
  calls (changePassword token newPassword) w =
    [RedisGet key; EmFindOne (ById (Some i)); Argon2Hash newPassword;
     EmPersistAndFlush u'; RedisDel key; SessionSetUserId (id u)] /\
  users w' = users w /\
  lookup_user (ById (Some i)) w' = Some u /\
  redis w' = delete key (redis w) /\
  live_value key w' = None /\
  session w' = mkSession (Some (id u)) /\
  result (changePassword token again) w' =
    Returned (response_errors [mkFieldError "token" "token expired"]) /\
  forall (w0 : World) (t0 : string),
    (redis w0 !! (FORGOT_PASSWORD_PREFIX +:+ t0) = None \/
     exists e, redis w0 !! (FORGOT_PASSWORD_PREFIX +:+ t0) = Some e /\
               expire_at e <= now w0) ->
    result (changePassword t0 again) w0 = result (changePassword token again) w'.
Proof.
  intros Hlen Hlen2 Hlive Hparse Hu key u' w'.
  pose proof (changePassword_valid_token_run _ _ _ _ _ _ Hlen Hlive Hparse Hu)
    as Hrun. cbv zeta in Hrun. fold key u' in Hrun.
  assert (Hgone : live_value key w' = None).
  { subst w'. unfold after. rewrite Hrun. apply live_value_unknown.
    apply lookup_delete_eq. }
  assert (Hsecond : result (changePassword token again) w' =
                    Returned (response_errors [token_expired])).
  { now apply changePassword_no_token. }
  split; [unfold result; now rewrite Hrun|].
  split; [reflexivity|].
  split.
  { apply (calls_spec _ _ _ _ _ Hrun). simpl. now rewrite <- !app_assoc. }
  split; [subst w'; unfold after; now rewrite Hrun|].
  split; [subst w'; unfold after; rewrite Hrun; exact Hu|].
  split; [subst w'; unfold after; now rewrite Hrun|].
  split; [exact Hgone|].
  split; [subst w'; unfold after; now rewrite Hrun|].
  split; [exact Hsecond|].
  intros w0 t0 Hw0. rewrite Hsecond. apply changePassword_no_token; [exact Hlen2|].
  destruct Hw0 as [Hnone | (e & He & Hexp)].
  - now apply live_value_unknown.
  - now apply (live_value_expired _ e).
Qed.

(** [login] always returns a response. *)
Lemma login_returns usernameOrEmail pwd w :
  exists r, result (login usernameOrEmail pwd) w = Returned r.
Proof.
  unfold result. rewrite login_run. cbv zeta.
  destruct (lookup_user _ w) as [u|]; [|now eexists].
  destruct (verify (password u) pwd); now eexists.
Qed.

(** C10. Every response [login] and [changePassword] return has exactly one
    of its two fields: a non-empty error list and no user, or a user and no
    error list. *)
Theorem login_changePassword_responses_exclusive
    (w : World) (a b : string) (r : UserResponse) :
  result (login a b) w = Returned r \/
  result (changePassword a b) w = Returned r ->
  exclusive r = true.
Proof.
  unfold result. intros [H|H].
  - rewrite login_run in H. cbv zeta in H.
    destruct (lookup_user _ w) as [u|]; [|now injection H as <-].
    destruct (verify (password u) b); now injection H as <-.
  - rewrite changePassword_run in H. cbv zeta in H.
    destruct (String.length b <=? 2)%nat; [now injection H as <-|].
    destruct (live_value _ w) as [[|c v]|]; try now injection H as <-.
    destruct (Js.parseInt (String c v)) as [i|]; [|discriminate].
    destruct (lookup_user (ById (Some i)) w) as [u|]; now injection H as <-.
Qed.

(** *** An insert failure whose error carries no detail *)

(** X21. Reading [includes] of the missing [detail] throws inside the
    [catch] block: this failure, too, leaves [register] without a response. *)
Lemma register_insert_failure_without_detail
    (w w2 : World) (options : UsernamePasswordInput.t) (e : DbError) :
  validateRegister options = None ->
  knex_insert (UsernamePasswordInput.username options)
              (hash (entropy w) (UsernamePasswordInput.password options))
              (UsernamePasswordInput.email options)
              (after (argon2_hash hash (UsernamePasswordInput.password options)) w)
    = (Thrown (DbExn e), w2) ->
  detail e = None ->
  result (register options) w =
    Thrown (TypeError "Cannot read property 'includes' of undefined").
Proof.
  intros Hv Hins Hd. unfold result. rewrite register_run, Hv. cbv zeta.
  unfold after in Hins. rewrite argon2_hash_run in Hins. simpl in Hins.
  rewrite Hins. change (exn_detail (DbExn e)) with (detail e). now rewrite Hd.
Qed.

(** *** From [forgotPassword] to [changePassword] *)

Lemma lookup_user_member q w u : lookup_user q w = Some u -> In u (users w).
Proof. intros H. now apply find_some in H. Qed.

(** With ids unique in the table, a row is the one its id finds. *)
Lemma lookup_by_id_of_member w u :
  List.NoDup (map id (users w)) -> In u (users w) ->
  lookup_user (ById (Some (id u))) w = Some u.
Proof.
  unfold lookup_user. induction (users w) as [|a l IH]; simpl; [tauto|].
  intros Hnd [->|Hin].
  - now rewrite Z.eqb_refl.
  - apply NoDup_cons_iff in Hnd as [Hnotin Hnd].
    destruct (Z.eqb_spec (id a) (id u)) as [Heq|_]; [|now apply IH].
    exfalso. apply Hnotin. rewrite Heq. now apply in_map.
Qed.

(** The token [forgotPassword] mails is valid in the world it leaves: the
    store holds the user's id under it, the id reads back, and the user is
    still there. *)
Lemma forgotPassword_issues_valid_token mail w u :
  lookup_user (ByEmail mail) w = Some u ->
  List.NoDup (map id (users w)) ->
  let w' := after (forgotPassword mail) w in
  let token := uuid (entropy w) in
  live_value (FORGOT_PASSWORD_PREFIX +:+ token) w' =
    Some (Js.Number_toString (id u)) /\
  Js.parseInt (Js.Number_toString (id u)) = Some (id u) /\
  lookup_user (ById (Some (id u))) w' = Some u /\
  entropy w' = S (entropy w).
Proof.
  intros Hu Hnd w' token. subst w'. unfold after.
  rewrite forgotPassword_run, Hu. cbv zeta.
  split; [|split; [apply parseInt_Number_toString|split; [|reflexivity]]].
  - apply (live_value_live _ (mkRedisEntry (Js.Number_toString (id u))
                                (now w + 1000 * 60 * 60 * 24 * 3 * 1000))).
    + apply lookup_insert_eq.
    + simpl. lia.
  - apply (lookup_by_id_of_member w u Hnd), (lookup_user_member _ _ _ Hu).
Qed.

(** X20. Hence a reset goes through end to end: the mailed token, redeemed
    with a password longer than two characters, returns the user with the
    new digest and logs them in. *)
Corollary forgotPassword_then_changePassword mail newPassword w u :
  (2 < String.length newPassword)%nat ->
  lookup_user (ByEmail mail) w = Some u ->
  List.NoDup (map id (users w)) ->
  let w1 := after (forgotPassword mail) w in
  let token := uuid (entropy w) in
  result (changePassword token newPassword) w1 =
    Returned (response_user
                (set_password (hash (S (entropy w)) newPassword) u)) /\
  session (after (changePassword token newPassword) w1) =
    mkSession (Some (id u)).
Proof.
  intros Hlen Hu Hnd w1 token.
  destruct (forgotPassword_issues_valid_token mail w u Hu Hnd)
    as (Hlive & Hparse & Hid & Hent).
  pose proof (changePassword_valid_token_run _ _ _ _ _ _ Hlen Hlive Hparse Hid)
    as Hrun. cbv zeta in Hrun. rewrite Hent in Hrun.
  subst w1 token. split.
  - unfold result. now rewrite Hrun.
  - unfold after at 1. now rewrite Hrun.
Qed.

(** [changePassword] returns a response unless the value stored for the
    token does not read as a number. *)
Lemma changePassword_returns token newPassword w :
  (forall v, live_value (FORGOT_PASSWORD_PREFIX +:+ token) w = Some v ->
             v <> "" -> Js.parseInt v <> None) ->
  exists r, result (changePassword token newPassword) w = Returned r.
Proof.
  intros Hnum. unfold result. rewrite changePassword_run. cbv zeta.
  destruct (String.length newPassword <=? 2)%nat; [now eexists|].
  destruct (live_value _ w) as [[|c v]|]; try now eexists.
  specialize (Hnum _ eq_refl ltac:(discriminate)).
  destruct (Js.parseInt (String c v)) as [i|]; [|congruence].
  destruct (lookup_user (ById (Some i)) w); now eexists.
Qed.

End Properties.

(** ** The theorems at concrete worlds *)

(** [register] with a mail address that has no [@], in the empty system. *)
Lemma register_invalid_input_no_effect_witness :
  let o := UsernamePasswordInput.mk "bob.example.org" "bob" "hunter2" in
  Sample.validate o = Some [mkFieldError "email" "invalid email"] /\
  (Sample.register o Sample.empty_world =
     (Returned (response_errors [mkFieldError "email" "invalid email"]),
      Sample.empty_world) /\
   calls (Sample.register o) Sample.empty_world = []).
Proof.
  intro o. split; [reflexivity|].
  apply (register_invalid_input_no_effect Sample.validate Sample.hash).
  reflexivity.
Defined.

(** [changePassword] with a two-character password. *)
Lemma changePassword_short_password_no_effect_witness :
  (String.length "ab" <= 2)%nat /\
  (Sample.changePassword "token-1" "ab" Sample.bob_world =
     (Returned (response_errors
        [mkFieldError "newPassword" "length must be greater than 2"]),
      Sample.bob_world) /\
   calls (Sample.changePassword "token-1" "ab") Sample.bob_world = []).
Proof.
  split; [simpl; lia|].
  apply (changePassword_short_password_no_effect Sample.prefix Sample.hash).
  simpl; lia.
Defined.

(** [login] by a mail address nobody has: the lookup is by email and the
    answer is the error on [usernameOrEmail]. *)
Lemma login_lookup_by_email_or_username_witness :
  In "@"%char (list_ascii_of_string "eve@example.org") /\
  lookup_user (UserResolver.login_query "eve@example.org") Sample.bob_world = None /\
  lookups (calls (Sample.login "eve@example.org" "secret") Sample.bob_world) =
    [ByEmail "eve@example.org"] /\
  result (Sample.login "eve@example.org" "secret") Sample.bob_world =
    Returned (response_errors
      [mkFieldError "usernameOrEmail" "username or email doesn't exist"]).
Proof.
  assert (Hin : In "@"%char (list_ascii_of_string "eve@example.org")).
  { simpl. tauto. }
  assert (Hnone : lookup_user (UserResolver.login_query "eve@example.org")
                              Sample.bob_world = None).
  { reflexivity. }
  destruct (login_lookup_by_email_or_username
              Sample.verify Sample.bob_world "eve@example.org" "secret")
    as (Hmail & _ & Herr).
  exact (conj Hin (conj Hnone (conj (Hmail Hin) (Herr Hnone)))).
Defined.

(** [login] as bob with a wrong password. *)
Lemma login_password_check_witness :
  lookup_user (UserResolver.login_query "bob") Sample.bob_world = Some Sample.bob /\
  Sample.verify (password Sample.bob) "hunter3" = false /\
  result (Sample.login "bob" "hunter3") Sample.bob_world =
    Returned (response_errors [mkFieldError "password" "incorrect password"]) /\
  session (after (Sample.login "bob" "hunter3") Sample.bob_world) =
    session Sample.bob_world.
Proof.
  assert (Hu : lookup_user (UserResolver.login_query "bob") Sample.bob_world =
               Some Sample.bob) by reflexivity.
  pose proof (login_password_check Sample.verify Sample.bob_world "bob" "hunter3"
                                   Sample.bob Hu) as H.
  simpl in H. destruct H as (Hr & Hs & _).
  exact (conj Hu (conj eq_refl (conj Hr Hs))).
Defined.

(** [forgotPassword] for bob's address: the entry lives 3000 days. *)
Lemma forgotPassword_lifetime_is_not_three_days_witness :
  lookup_user (ByEmail "bob@example.org") Sample.bob_world = Some Sample.bob /\
  let w' := after (Sample.forgotPassword "bob@example.org") Sample.bob_world in
  lifetime_left "forget-password:token-1" w' = Some 259200000000 /\
  lifetime_left "forget-password:token-1" w' <> Some 259200000 /\
  live_value "forget-password:token-1" (elapse (4 * 24 * 60 * 60 * 1000) w') =
    Some "1".
Proof.
  assert (Hu : lookup_user (ByEmail "bob@example.org") Sample.bob_world =
               Some Sample.bob) by reflexivity.
  split; [exact Hu|].
  destruct (forgotPassword_lifetime_is_not_three_days
              Sample.prefix Sample.uuid Sample.bob_world "bob@example.org"
              Sample.bob Hu) as (Hlife & Hnot & Hlive).
  refine (conj Hlife (conj Hnot (Hlive (4 * 24 * 60 * 60 * 1000) _))).
  unfold three_days_ms. lia.
Defined.

(** Registering bob where bob is already registered, and registering amy
    twice in the empty system. *)
Lemma register_unique_violation_username_taken_witness :
  let o := UsernamePasswordInput.mk "bob2@example.org" "bob" "hunter2" in
  let amy := UsernamePasswordInput.mk "amy@example.org" "amy" "secret" in
  Sample.validate o = None /\
  (exists w2,
     knex_insert "bob" (Sample.hash (entropy Sample.bob_world) "hunter2")
                 "bob2@example.org"
                 (after (UserResolver.argon2_hash Sample.hash "hunter2")
                        Sample.bob_world)
     = (Thrown (DbExn (unique_violation "username" "bob")), w2)) /\
  result (Sample.register o) Sample.bob_world =
    Returned (response_errors [mkFieldError "username" "username already taken"]) /\
  result (Sample.register amy) Sample.empty_world =
    Returned (response_user (mkUser 1 "amy" "amy@example.org" "0$secret" 0 0)) /\
  result (Sample.register amy) (after (Sample.register amy) Sample.empty_world) =
    Returned (response_errors [mkFieldError "username" "username already taken"]).
Proof.
  intros o amy.
  destruct (register_unique_violation_username_taken Sample.validate Sample.hash)
    as [Hrejected Htwice].
  assert (Hfirst : result (Sample.register amy) Sample.empty_world =
                   Returned (response_user
                               (mkUser 1 "amy" "amy@example.org" "0$secret" 0 0)))
    by (vm_compute; reflexivity).
  split; [reflexivity|]. split; [|split; [|split]].
  - eexists. vm_compute. reflexivity.
  - eapply (Hrejected Sample.bob_world _ o "username" "bob").
    + reflexivity.
    + vm_compute. reflexivity.
  - exact Hfirst.
  - exact (Htwice Sample.empty_world amy amy _ eq_refl eq_refl eq_refl Hfirst).
Defined.

Lemma register_other_insert_failure_throws_witness :
  Sample.validate amy_input = None /\
  lacks_already_exists check_violation = true /\
  lacks_already_exists (mkDbError "timeout" None) = true /\
  result (Sample.register amy_input) check_fault_world =
    Thrown (TypeError "Cannot read property 'id' of undefined") /\
  session (after (Sample.register amy_input) check_fault_world) =
    session check_fault_world /\
  result (Sample.register amy_input) silent_fault_world =
    Thrown (TypeError "Cannot read property 'includes' of undefined") /\
  session (after (Sample.register amy_input) silent_fault_world) =
    session silent_fault_world.
Proof.
  assert (Hv : Sample.validate amy_input = None) by reflexivity.
  assert (Hc : lacks_already_exists check_violation = true) by reflexivity.
  assert (Ht : lacks_already_exists (mkDbError "timeout" None) = true)
    by reflexivity.
  destruct (register_other_insert_failure_throws
              Sample.validate Sample.hash check_fault_world
              (logged (KnexInsert "amy" (Sample.hash 1 "secret") "amy@example.org")
                 (after (UserResolver.argon2_hash Sample.hash "secret")
                        check_fault_world))
              amy_input check_violation Hv eq_refl Hc)
    as (Hr1 & _ & Hs1 & _).
  destruct (register_other_insert_failure_throws
              Sample.validate Sample.hash silent_fault_world
              (logged (KnexInsert "amy" (Sample.hash 1 "secret") "amy@example.org")
                 (after (UserResolver.argon2_hash Sample.hash "secret")
                        silent_fault_world))
              amy_input (mkDbError "timeout" None) Hv eq_refl Ht)
    as (Hr2 & _ & Hs2 & _).
  exact (conj Hv (conj Hc (conj Ht (conj Hr1 (conj Hs1 (conj Hr2 Hs2)))))).
Defined.

(** C9 as first stated fails for an error without detail: the insert is
    rejected, the error does not speak of a uniqueness violation, and yet
    the [catch] block does not fall through to the read of [user.id]; it is
    the read of [err.detail.includes] inside the block that throws. *)
Lemma register_failure_without_detail_not_swallowed :
  Sample.validate amy_input = None /\
  insert_fault silent_fault_world = Some (mkDbError "timeout" None) /\
  lacks_already_exists (mkDbError "timeout" None) = true /\
  result (Sample.register amy_input) silent_fault_world <>
    Thrown (TypeError "Cannot read property 'id' of undefined") /\
  result (Sample.register amy_input) silent_fault_world =
    Thrown (TypeError "Cannot read property 'includes' of undefined").
Proof.
  assert (Hr : result (Sample.register amy_input) silent_fault_world =
               Thrown (TypeError "Cannot read property 'includes' of undefined"))
    by (vm_compute; reflexivity).
  refine (conj eq_refl (conj eq_refl (conj eq_refl (conj _ Hr)))).
  rewrite Hr. discriminate.
Qed.

Lemma changePassword_token_single_use_witness :
  live_value (Sample.prefix +:+ "token-1") reset_world = Some "1" /\
  Js.parseInt "1" = Some 1 /\
  lookup_user (ById (Some 1)) reset_world = Some Sample.bob /\
  let w' := after (Sample.changePassword "token-1" "s3cret") reset_world in
  result (Sample.changePassword "token-1" "s3cret") reset_world =
    Returned (response_user (UserResolver.set_password "2$s3cret" Sample.bob)) /\
  lookup_user (ById (Some 1)) w' = Some Sample.bob /\
  password Sample.bob = "0$hunter2" /\
  session w' = mkSession (Some 1) /\
  result (Sample.changePassword "token-1" "s3cret") w' =
    Returned (response_errors [mkFieldError "token" "token expired"]).
Proof.
  assert (Hlive : live_value (Sample.prefix +:+ "token-1") reset_world = Some "1")
    by (vm_compute; reflexivity).
  assert (Hparse : Js.parseInt "1" = Some 1) by reflexivity.
  assert (Hu : lookup_user (ById (Some 1)) reset_world = Some Sample.bob)
    by reflexivity.
  assert (Hlen : (2 < String.length "s3cret")%nat) by (simpl; lia).
  destruct (changePassword_token_single_use
              Sample.prefix Sample.hash reset_world "token-1" "s3cret" "s3cret"
              "1" 1 Sample.bob Hlen Hlen Hlive Hparse Hu)
    as (Hr & _ & _ & _ & Hold & _ & _ & Hs & Hagain & _).
  exact (conj Hlive (conj Hparse (conj Hu
           (conj Hr (conj Hold (conj eq_refl (conj Hs Hagain))))))).
Defined.

(** The response to a wrong password has errors and no user. *)
Lemma login_changePassword_responses_exclusive_witness :
  result (Sample.login "bob" "hunter3") Sample.bob_world =
    Returned (response_errors [mkFieldError "password" "incorrect password"]) /\
  exclusive (response_errors [mkFieldError "password" "incorrect password"]) = true.
Proof.
  assert (H : result (Sample.login "bob" "hunter3") Sample.bob_world =
              Returned (response_errors
                          [mkFieldError "password" "incorrect password"]))
    by reflexivity.
  split; [exact H|].
  apply (login_changePassword_responses_exclusive
           Sample.prefix Sample.hash Sample.verify Sample.bob_world "bob" "hunter3").
  left. exact H.
Defined.

(** * Further properties of the resolvers *)

Section Further.

Variable FORGOT_PASSWORD_PREFIX : string.
Variable validateRegister : UsernamePasswordInput.t -> option (list FieldError).
Variable hash : nat -> string -> string.
Variable verify : string -> string -> bool.
Variable uuid : nat -> string.
Variable COOKIE_NAME : string.

Import UserResolver.

Abbreviation register := (UserResolver.register validateRegister hash).
Abbreviation login := (UserResolver.login verify).
Abbreviation forgotPassword := (UserResolver.forgotPassword FORGOT_PASSWORD_PREFIX uuid).
Abbreviation changePassword := (UserResolver.changePassword FORGOT_PASSWORD_PREFIX hash).
Abbreviation logout := (UserResolver.logout COOKIE_NAME).

(** ** [me] *)

Lemma me_run w :
  me w =
  match userId (session w) with
  | None | Some 0 => (Returned None, w)
  | Some i =>
      (Returned (lookup_user (ById (Some i)) w), logged (EmFindOne (ById (Some i))) w)
  end.
Proof.
  unfold me, session_userId, bind.
  destruct (userId (session w)) as [[|p|p]|]; try reflexivity;
    now rewrite em_findOne_run.
Qed.


(** X1. When the session holds no user id, or holds the id 0, [me] answers
    [null] at once: no lookup is made and the world is untouched. *)
Theorem me_without_user_id_no_lookup (w : World) :
  userId (session w) = None \/ userId (session w) = Some 0 ->
  me w = (Returned None, w) /\ calls me w = [].
Proof.
  intros H.
  assert (Hrun : me w = (Returned None, w)).
  { rewrite me_run. now destruct H as [-> | ->]. }
  split; [exact Hrun|].
  apply (calls_spec _ _ _ _ _ Hrun). now rewrite app_nil_r.
Qed.

(** X2. [me] only ever returns the user of the session: when it returns a
    user, that row is in the table and its id, which is not 0, is the one
    the session holds; and the run wrote nothing (only the call log grew). *)
Theorem me_returns_session_user (w : World) (u : User) :
  result me w = Returned (Some u) ->
  userId (session w) = Some (id u) /\
  id u <> 0 /\
  In u (users w) /\
  set_log (log w) (after me w) = w.
Proof.
  unfold result, after. rewrite me_run.
  destruct (userId (session w)) as [i|] eqn:Hs; [|discriminate].
  destruct (Z.eq_dec i 0) as [->|Hi]; [discriminate|].
  assert (Hrun : (match i with
                  | 0 => (Returned None, w)
                  | _ => (Returned (lookup_user (ById (Some i)) w),
                          logged (EmFindOne (ById (Some i))) w)
                  end) = (Returned (lookup_user (ById (Some i)) w),
                          logged (EmFindOne (ById (Some i))) w)).
  { destruct i; [congruence | reflexivity..]. }
  rewrite Hrun. simpl. intros [= Hfind].
  pose proof (lookup_user_member _ _ _ Hfind) as Hin.
  apply find_some in Hfind as [_ Hid]. simpl in Hid.
  assert (id u = i) by lia. subst i.
  repeat split; try assumption. now destruct w.
Qed.

(** ** [logout] *)

(** X3. When the session store destroys the session, [logout] resolves to
    [true], tells the client to clear the session cookie and nothing else,
    and leaves the table and the token store as they are; [me] then answers
    [null] without a lookup. *)
Theorem logout_then_me_is_null (x : Exchange) :
  destroy_fault x = None ->
  let x' := snd (logout x) in
  fst (logout x) = true /\
  cleared_cookies x' = cleared_cookies x ++ [COOKIE_NAME] /\
  console x' = console x /\
  users (stores x') = users (stores x) /\
  redis (stores x') = redis (stores x) /\
  me (stores x') = (Returned None, stores x').
Proof.
  intros Hf x'. subst x'. unfold UserResolver.logout, session_destroy.
  rewrite Hf. simpl. repeat split.
Qed.

(** X4. When the session store fails to destroy the session, [logout]
    resolves to [false] and logs the error; no cookie is cleared and the
    session is as before, so [me] answers what it answered before. *)
Theorem logout_failure_keeps_session (x : Exchange) (err : string) :
  destroy_fault x = Some err ->
  let x' := snd (logout x) in
  fst (logout x) = false /\
  cleared_cookies x' = cleared_cookies x /\
  console x' = console x ++ [err] /\
  stores x' = stores x /\
  result me (stores x') = result me (stores x).
Proof.
  intros Hf x'. subst x'. unfold UserResolver.logout, session_destroy.
  rewrite Hf. simpl. repeat split.
Qed.

(** ** [register] *)

Lemma knex_insert_run uname pwd mail w :
  knex_insert uname pwd mail w =
  let w0 := logged (KnexInsert uname pwd mail) w in
  match insert_fault w with
  | Some e => (Thrown (DbExn e), w0)
  | None =>
      let row := mkUser (next_id w) uname mail pwd (now w) (now w) in
      let w1 := set_next_id (next_id w + 1) w0 in
      if existsb (fun u => String.eqb (username u) uname) (users w) then
        (Thrown (DbExn (unique_violation "username" uname)), w1)
      else if existsb (fun u => String.eqb (email u) mail) (users w) then
        (Thrown (DbExn (unique_violation "email" mail)), w1)
      else (Returned row, set_users (users w ++ [row]) w1)
  end.
Proof. reflexivity. Qed.

Lemma find_none_existsb {A} (f : A -> bool) (l : list A) :
  List.find f l = None -> existsb f l = false.
Proof.
  induction l as [|a l IH]; simpl; [reflexivity|].
  destruct (f a); [discriminate | exact IH].
Qed.

Lemma find_app_none {A} (f : A -> bool) (l l' : list A) :
  List.find f l = None -> List.find f (l ++ l') = List.find f l'.
Proof.
  intros Hnone. induction l as [|b l IH]; simpl in *; [reflexivity|].
  destruct (f b); [discriminate | now apply IH].
Qed.

Lemma find_app_new {A} (f : A -> bool) (l : list A) (a : A) :
  List.find f l = None -> f a = true -> List.find f (l ++ [a]) = Some a.
Proof.
  intros Hnone Ha. induction l as [|b l IH]; simpl in *; [now rewrite Ha|].
  destruct (f b); [discriminate | now apply IH].
Qed.

Lemma no_username_existsb w s :
  lookup_user (ByUsername s) w = None ->
  existsb (fun u => String.eqb (username u) s) (users w) = false.
Proof. intros H. exact (find_none_existsb (matches (ByUsername s)) _ H). Qed.

Lemma no_email_existsb w s :
  lookup_user (ByEmail s) w = None ->
  existsb (fun u => String.eqb (email u) s) (users w) = false.
Proof. intros H. exact (find_none_existsb (matches (ByEmail s)) _ H). Qed.

(** The run of [register] for a username and an email nobody has. *)
Lemma register_new_user_run (w : World) (options : UsernamePasswordInput.t) :
  validateRegister options = None ->
  insert_fault w = None ->
  lookup_user (ByUsername (UsernamePasswordInput.username options)) w = None ->
  lookup_user (ByEmail (UsernamePasswordInput.email options)) w = None ->
  let uname := UsernamePasswordInput.username options in
  let mail := UsernamePasswordInput.email options in
  let pwd := UsernamePasswordInput.password options in
  let row := mkUser (next_id w) uname mail (hash (entropy w) pwd) (now w) (now w) in
  register options w =
    (Returned (response_user row),
     set_session (mkSession (Some (next_id w)))
       (logged (SessionSetUserId (next_id w))
          (set_users (users w ++ [row])
             (set_next_id (next_id w + 1)
                (logged (KnexInsert uname (hash (entropy w) pwd) mail)
                   (set_entropy (S (entropy w)) (logged (Argon2Hash pwd) w))))))).
Proof.
  intros Hv Hf Hu He uname mail pwd row.
  rewrite register_run, Hv. cbv zeta. rewrite knex_insert_run. cbv zeta.
  change (insert_fault (set_entropy _ (logged _ w))) with (insert_fault w).
  change (users (set_entropy _ (logged _ w))) with (users w).
  rewrite Hf.
  rewrite (no_username_existsb _ _ Hu), (no_email_existsb _ _ He).
  reflexivity.
Qed.

(** X5. Registering a username and an email that no row has, with an input
    that passes validation and a healthy insert, returns the new row: it
    carries the next id of the sequence, the given username and email, and
    the digest of the password; the table gains exactly that row, the
    session holds its id, and the token store and outbox are untouched. *)
Theorem register_new_user_logged_in
    (w : World) (options : UsernamePasswordInput.t) :
  validateRegister options = None ->
  insert_fault w = None ->
  lookup_user (ByUsername (UsernamePasswordInput.username options)) w = None ->
  lookup_user (ByEmail (UsernamePasswordInput.email options)) w = None ->
  let w' := after (register options) w in
  let row := mkUser (next_id w)
                    (UsernamePasswordInput.username options)
                    (UsernamePasswordInput.email options)
                    (hash (entropy w) (UsernamePasswordInput.password options))
                    (now w) (now w) in
  result (register options) w = Returned (response_user row) /\
  users w' = users w ++ [row] /\
  session w' = mkSession (Some (next_id w)) /\
  next_id w' = next_id w + 1 /\
  redis w' = redis w /\
  outbox w' = outbox w.
Proof.
  intros Hv Hf Hu He w' row. subst w'. unfold result, after.
  rewrite (register_new_user_run w options Hv Hf Hu He). cbv zeta.
  repeat split.
Qed.

(** X6. A user who has just registered can log in: with the username when
    it holds no [@], with the email when it holds one, given that the
    password verifies against the digest made of it. *)
Theorem register_then_login
    (w : World) (options : UsernamePasswordInput.t) :
  validateRegister options = None ->
  insert_fault w = None ->
  lookup_user (ByUsername (UsernamePasswordInput.username options)) w = None ->
  lookup_user (ByEmail (UsernamePasswordInput.email options)) w = None ->
  let uname := UsernamePasswordInput.username options in
  let mail := UsernamePasswordInput.email options in
  let pwd := UsernamePasswordInput.password options in
  verify (hash (entropy w) pwd) pwd = true ->
  let w' := after (register options) w in
  let row := mkUser (next_id w) uname mail (hash (entropy w) pwd) (now w) (now w) in
  (Js.includes uname "@" = false ->
   result (login uname pwd) w' = Returned (response_user row)) /\
  (Js.includes mail "@" = true ->
   result (login mail pwd) w' = Returned (response_user row)).
Proof.
  intros Hv Hf Hu He uname mail pwd Hver w' row. subst w'. unfold after.
  rewrite (register_new_user_run w options Hv Hf Hu He). cbv zeta.
  fold uname mail pwd row.
  cbn [snd].
  match goal with |- context [result _ ?W] => set (w' := W) end.
  assert (Hus : users w' = users w ++ [row]) by reflexivity.
  assert (Hbyname : lookup_user (ByUsername uname) w' = Some row).
  { unfold lookup_user. rewrite Hus.
    apply find_app_new; [exact Hu | apply String.eqb_refl]. }
  assert (Hbymail : lookup_user (ByEmail mail) w' = Some row).
  { unfold lookup_user. rewrite Hus.
    apply find_app_new; [exact He | apply String.eqb_refl]. }
  clearbody w'. unfold result.
  split; intros Hat; rewrite login_run; cbv zeta; unfold login_query;
    rewrite Hat.
  - rewrite Hbyname. change (password row) with (hash (entropy w) pwd).
    now rewrite Hver.
  - rewrite Hbymail. change (password row) with (hash (entropy w) pwd).
    now rewrite Hver.
Qed.

(** X7. A username that holds an [@] cannot be used to log in: [login]
    looks such a string up among the emails only. After registering with
    such a username, which is not the email and is nobody's email, [login]
    with the username answers that the account does not exist. *)
Theorem register_username_with_at_cannot_login
    (w : World) (options : UsernamePasswordInput.t) (pwd' : string) :
  validateRegister options = None ->
  insert_fault w = None ->
  lookup_user (ByUsername (UsernamePasswordInput.username options)) w = None ->
  lookup_user (ByEmail (UsernamePasswordInput.email options)) w = None ->
  let uname := UsernamePasswordInput.username options in
  Js.includes uname "@" = true ->
  UsernamePasswordInput.email options <> uname ->
  lookup_user (ByEmail uname) w = None ->
  let w' := after (register options) w in
  lookup_user (ByUsername uname) w' <> None /\
  result (login uname pwd') w' = Returned (response_errors [unknown_account]).
Proof.
  intros Hv Hf Hu He uname Hat Hne Hnomail w'. subst w'. unfold after.
  rewrite (register_new_user_run w options Hv Hf Hu He). cbv zeta.
  subst uname. cbn [snd].
  match goal with |- context [result _ ?W] => set (w' := W) end.
  set (uname := UsernamePasswordInput.username options) in *.
  set (row := mkUser (next_id w) uname (UsernamePasswordInput.email options)
                (hash (entropy w) (UsernamePasswordInput.password options))
                (now w) (now w)).
  assert (Hus : users w' = users w ++ [row]) by reflexivity.
  clearbody w'. split.
  - unfold lookup_user. rewrite Hus.
    rewrite (find_app_new _ _ row Hu); [discriminate | apply String.eqb_refl].
  - unfold result. rewrite login_run. cbv zeta. unfold login_query.
    rewrite Hat. unfold lookup_user at 1. rewrite Hus.
    unfold lookup_user in Hnomail. rewrite (find_app_none _ _ _ Hnomail). simpl.
    destruct (String.eqb_spec (UsernamePasswordInput.email options) uname);
      [contradiction | reflexivity].
Qed.

(** X8. A registration whose insert is rejected, whatever the error, logs
    nobody in and adds no row: session, table, token store and outbox are
    as before. *)
Theorem register_rejected_no_login
    (w w2 : World) (options : UsernamePasswordInput.t) (e : Exn) :
  validateRegister options = None ->
  knex_insert (UsernamePasswordInput.username options)
              (hash (entropy w) (UsernamePasswordInput.password options))
              (UsernamePasswordInput.email options)
              (after (argon2_hash hash (UsernamePasswordInput.password options)) w)
    = (Thrown e, w2) ->
  let w' := after (register options) w in
  session w' = session w /\ users w' = users w /\
  redis w' = redis w /\ outbox w' = outbox w /\
  forall u, result (register options) w <> Returned (response_user u).
Proof.
  intros Hv Hins w'. subst w'. unfold result, after.
  rewrite register_run, Hv. cbv zeta.
  unfold after in Hins. rewrite argon2_hash_run in Hins. simpl in Hins.
  rewrite Hins.
  assert (Hw2 : session w2 = session w /\ users w2 = users w /\
                redis w2 = redis w /\ outbox w2 = outbox w).
  { rewrite knex_insert_run in Hins. cbv zeta in Hins. simpl in Hins.
    destruct (insert_fault w); [injection Hins as _ <-; now repeat split|].
    destruct (existsb _ _); [injection Hins as _ <-; now repeat split|].
    destruct (existsb _ _); [injection Hins as _ <-; now repeat split|].
    discriminate. }
  destruct Hw2 as (Hs & Hus & Hr & Ho).
  destruct (exn_detail e) as [d|]; [destruct (Js.includes d "already exists")|];
    simpl; repeat split; try assumption; intros u; discriminate.
Qed.

(** ** [login] *)

(** X9. [login] returns a user only for a row of the table whose stored
    digest the password verifies against, found under the given email (a
    string with an [@]) or username (a string without); the session then
    holds that user's id. *)
Theorem login_success_is_verified
    (w : World) (usernameOrEmail pwd : string) (u : User) :
  result (login usernameOrEmail pwd) w = Returned (response_user u) ->
  In u (users w) /\
  verify (password u) pwd = true /\
  (if Js.includes usernameOrEmail "@"
   then email u = usernameOrEmail
   else username u = usernameOrEmail) /\
  session (after (login usernameOrEmail pwd) w) = mkSession (Some (id u)).
Proof.
  unfold result, after. rewrite login_run. cbv zeta.
  destruct (lookup_user _ w) as [u0|] eqn:Hfind; [|discriminate].
  destruct (verify (password u0) pwd) eqn:Hver; [|discriminate].
  simpl. intros [= <-].
  split; [exact (lookup_user_member _ _ _ Hfind)|].
  split; [exact Hver|]. split; [|reflexivity].
  apply find_some in Hfind as [_ Hm]. unfold login_query in Hm.
  destruct (Js.includes usernameOrEmail "@"); simpl in Hm;
    now apply String.eqb_eq in Hm.
Qed.

(** X10. [login] writes nothing but the session, and the session only when
    it returns a user: the table, the token store, the outbox and the
    sequence are as before in every case, and without a returned user the
    session is as before too. When no row is found the password is not
    checked at all. *)
Theorem login_writes_only_the_session
    (w : World) (usernameOrEmail pwd : string) :
  let w' := after (login usernameOrEmail pwd) w in
  users w' = users w /\ redis w' = redis w /\
  outbox w' = outbox w /\ next_id w' = next_id w /\
  ((exists u, result (login usernameOrEmail pwd) w = Returned (response_user u)) \/
   session w' = session w) /\
  match lookup_user (login_query usernameOrEmail) w with
  | None => calls (login usernameOrEmail pwd) w =
              [EmFindOne (login_query usernameOrEmail)]
  | Some u => In (Argon2Verify (password u) pwd)
                 (calls (login usernameOrEmail pwd) w)
  end.
Proof.
  intros w'. subst w'. unfold result, after.
  pose proof (login_run verify usernameOrEmail pwd w) as Hrun. cbv zeta in Hrun.
  destruct (lookup_user (login_query usernameOrEmail) w) as [u|].
  - destruct (verify (password u) pwd).
    + rewrite Hrun. simpl. repeat split; [left; now eexists|].
      erewrite calls_spec; [| exact Hrun | simpl; rewrite <- !app_assoc; reflexivity].
      simpl. tauto.
    + rewrite Hrun. simpl. repeat split; [now right|].
      erewrite calls_spec; [| exact Hrun | simpl; rewrite <- !app_assoc; reflexivity].
      simpl. tauto.
  - rewrite Hrun. simpl. repeat split; [now right|].
    now apply (calls_spec _ _ _ _ _ Hrun).
Qed.

(** ** [forgotPassword] *)

Lemma append_inj_r (p a b : string) : p +:+ a = p +:+ b -> a = b.
Proof.
  induction p as [|c p IH]; [trivial|].
  change (String c (p +:+ a) = String c (p +:+ b) -> a = b).
  intros [= H]. now apply IH.
Qed.

(** X11. [forgotPassword] touches neither the table nor the session, and in
    the token store only the entry of the token it issues: every other key
    holds what it held. *)
Theorem forgotPassword_leaves_other_tokens
    (w : World) (mail key : string) :
  key <> FORGOT_PASSWORD_PREFIX +:+ uuid (entropy w) ->
  let w' := after (forgotPassword mail) w in
  redis w' !! key = redis w !! key /\
  users w' = users w /\
  session w' = session w.
Proof.
  intros Hkey w'. subst w'. unfold after.
  rewrite forgotPassword_run. cbv zeta.
  destruct (lookup_user (ByEmail mail) w); simpl; [|now repeat split].
  split; [|now split]. now apply lookup_insert_ne.
Qed.

(** X12. Asking twice for a reset does not revoke the first token: after
    two calls for the email of a user, both tokens (they differ when the
    generator does not repeat itself) are live in the store and hold the
    user's id. *)
Theorem forgotPassword_twice_both_tokens_live
    (w : World) (mail : string) (u : User) :
  lookup_user (ByEmail mail) w = Some u ->
  uuid (entropy w) <> uuid (S (entropy w)) ->
  let w2 := after (forgotPassword mail) (after (forgotPassword mail) w) in
  live_value (FORGOT_PASSWORD_PREFIX +:+ uuid (entropy w)) w2 =
    Some (Js.Number_toString (id u)) /\
  live_value (FORGOT_PASSWORD_PREFIX +:+ uuid (S (entropy w))) w2 =
    Some (Js.Number_toString (id u)).
Proof.
  intros Hu Hne w2. subst w2. unfold after.
  rewrite (forgotPassword_run _ _ mail w), Hu. cbv zeta. cbn [snd].
  match goal with |- context [forgotPassword mail ?W] => set (w1 := W) end.
  assert (Hu1 : lookup_user (ByEmail mail) w1 = Some u) by exact Hu.
  rewrite (forgotPassword_run _ _ mail w1), Hu1. cbv zeta. cbn [snd].
  change (entropy w1) with (S (entropy w)).
  change (now w1) with (now w).
  split.
  - apply (live_value_live _ (mkRedisEntry (Js.Number_toString (id u))
                                (now w + 1000 * 60 * 60 * 24 * 3 * 1000))).
    + simpl. rewrite lookup_insert_ne.
      * apply lookup_insert_eq.
      * intros H. apply append_inj_r in H. congruence.
    + simpl. lia.
  - apply (live_value_live _ (mkRedisEntry (Js.Number_toString (id u))
                                (now w + 1000 * 60 * 60 * 24 * 3 * 1000))).
    + simpl. apply lookup_insert_eq.
    + simpl. lia.
Qed.

(** ** [changePassword] *)

(** X13. When the token is live but the user it names is gone,
    [changePassword] answers the one error [user no longer exists] on field
    [token] and consumes nothing: the token is still live, and the table and
    the session are as before. *)
Theorem changePassword_user_gone_keeps_token
    (w : World) (token newPassword v : string) (i : Z) :
  (2 < String.length newPassword)%nat ->
  live_value (FORGOT_PASSWORD_PREFIX +:+ token) w = Some v ->
  Js.parseInt v = Some i ->
  lookup_user (ById (Some i)) w = None ->
  let w' := after (changePassword token newPassword) w in
  result (changePassword token newPassword) w =
    Returned (response_errors [mkFieldError "token" "user no longer exists"]) /\
  live_value (FORGOT_PASSWORD_PREFIX +:+ token) w' = Some v /\
  users w' = users w /\
  session w' = session w.
Proof.
  intros Hlen Hlive Hparse Hnone w'. subst w'. unfold result, after.
  rewrite changePassword_run.
  destruct (Nat.leb_spec (String.length newPassword) 2); [lia|].
  cbv zeta. rewrite Hlive. destruct v as [|c v]; [discriminate|].
  rewrite Hparse, Hnone. simpl. repeat split. exact Hlive.
Qed.

(** X14. The token [forgotPassword] issues stops working once its lifetime
    in the store has passed: from then on [changePassword] answers
    [token expired]. *)
Theorem changePassword_after_expiry
    (w : World) (mail newPassword : string) (u : User) (d : Z) :
  lookup_user (ByEmail mail) w = Some u ->
  (2 < String.length newPassword)%nat ->
  1000 * three_days_ms <= d ->
  let w1 := after (forgotPassword mail) w in
  result (changePassword (uuid (entropy w)) newPassword) (elapse d w1) =
    Returned (response_errors [mkFieldError "token" "token expired"]).
Proof.
  intros Hu Hlen Hd w1. subst w1. unfold after.
  rewrite forgotPassword_run, Hu. cbv zeta. cbn [snd].
  apply changePassword_no_token; [exact Hlen|].
  apply (live_value_expired _ (mkRedisEntry (Js.Number_toString (id u))
                                 (now w + 1000 * 60 * 60 * 24 * 3 * 1000))).
  - simpl. apply lookup_insert_eq.
  - simpl. unfold three_days_ms in Hd. lia.
Qed.




(** ** The table across the resolvers *)

(** [table_ok] speaks of the key columns and the sequence only. *)
Lemma table_ok_same_keys (w w' : World) :
  map id (users w') = map id (users w) ->
  map username (users w') = map username (users w) ->
  map email (users w') = map email (users w) ->
  next_id w <= next_id w' ->
  table_ok w -> table_ok w'.
Proof.
  intros Hi Hu He Hn (Hnd & Hnu & Hne & Hfresh).
  unfold table_ok. rewrite Hi, Hu, He. repeat split; try assumption.
  apply List.Forall_forall. intros r Hr.
  assert (Hin : In (id r) (map id (users w))) by (rewrite <- Hi; now apply in_map).
  apply in_map_iff in Hin as (r0 & Heq & Hr0).
  rewrite List.Forall_forall in Hfresh. specialize (Hfresh r0 Hr0). lia.
Qed.

Lemma table_ok_same_users (w w' : World) :
  users w' = users w -> next_id w <= next_id w' -> table_ok w -> table_ok w'.
Proof.
  intros Hus Hn. apply table_ok_same_keys; now rewrite ?Hus.
Qed.

Lemma existsb_false_not_in {A} (f : A -> string) (s : string) (l : list A) :
  existsb (fun a => String.eqb (f a) s) l = false -> ~ In s (map f l).
Proof.
  induction l as [|a l IH]; simpl; [tauto|].
  intros H. apply orb_false_iff in H as [Ha Hl].
  intros [Heq|Hin]; [|now apply IH].
  rewrite Heq, String.eqb_refl in Ha. discriminate.
Qed.

Lemma NoDup_snoc {A} (l : list A) (a : A) :
  List.NoDup l -> ~ In a l -> List.NoDup (l ++ [a]).
Proof.
  intros Hnd Hnotin. induction l as [|b l IH]; simpl.
  - constructor; [tauto | constructor].
  - apply NoDup_cons_iff in Hnd as [Hb Hnd]. constructor.
    + rewrite in_app_iff. simpl. intros [H|[H|[]]]; [tauto|].
      apply Hnotin. now left.
    + apply IH; [exact Hnd|]. intros H. apply Hnotin. now right.
Qed.

(** The insert keeps the table well keyed, whether it adds the row or
    rejects it. *)
Lemma knex_insert_table_ok uname pwd mail w r w' :
  knex_insert uname pwd mail w = (r, w') -> table_ok w -> table_ok w'.
Proof.
  rewrite knex_insert_run. cbv zeta.
  destruct (insert_fault w).
  { intros Heq. apply (f_equal snd) in Heq. simpl in Heq. subst w'.
    now apply table_ok_same_users. }
  destruct (existsb (fun u => String.eqb (username u) uname) (users w)) eqn:Hu.
  { intros Heq. apply (f_equal snd) in Heq. simpl in Heq. subst w'.
    apply table_ok_same_users; [reflexivity | simpl; lia]. }
  destruct (existsb (fun u => String.eqb (email u) mail) (users w)) eqn:He.
  { intros Heq. apply (f_equal snd) in Heq. simpl in Heq. subst w'.
    apply table_ok_same_users; [reflexivity | simpl; lia]. }
  intros Heq (Hnd & Hnu & Hne & Hfresh).
  apply (f_equal snd) in Heq. simpl in Heq. subst w'.
  unfold table_ok. simpl. rewrite !map_app. simpl. repeat split.
  - apply NoDup_snoc; [exact Hnd|]. intros Hin.
    apply in_map_iff in Hin as (r0 & Heq & Hr0).
    rewrite List.Forall_forall in Hfresh. specialize (Hfresh r0 Hr0). lia.
  - apply NoDup_snoc; [exact Hnu|]. exact (existsb_false_not_in username _ _ Hu).
  - apply NoDup_snoc; [exact Hne|]. exact (existsb_false_not_in email _ _ He).
  - apply List.Forall_app. split.
    + eapply List.Forall_impl; [|exact Hfresh]. simpl. intros; lia.
    + constructor; [simpl; lia | constructor].
Qed.

(** X17. No resolver breaks the keys of the table: if ids, usernames and
    emails are unique and every id is below the sequence, they still are
    after [register], [login], [forgotPassword], [changePassword] and [me],
    whatever the arguments and the outcome. *)
Theorem resolvers_keep_table_ok
    (w : World) (options : UsernamePasswordInput.t) (a b : string) :
  table_ok w ->
  table_ok (after (register options) w) /\
  table_ok (after (login a b) w) /\
  table_ok (after (forgotPassword a) w) /\
  table_ok (after (changePassword a b) w) /\
  table_ok (after me w).
Proof.
  intros Hok. unfold after. split; [|split; [|split; [|split]]].
  - rewrite register_run. cbv zeta.
    destruct (validateRegister options); [exact Hok|].
    destruct (knex_insert _ _ _ _) as [r w2] eqn:Hins.
    assert (Hok2 : table_ok w2).
    { apply (knex_insert_table_ok _ _ _ _ _ _ Hins).
      now apply (table_ok_same_users w). }
    destruct r as [row|err].
    + now apply (table_ok_same_users w2).
    + destruct (exn_detail err) as [d|]; [|exact Hok2].
      now destruct (Js.includes d "already exists").
  - rewrite login_run. cbv zeta.
    destruct (lookup_user _ w) as [u|]; [|now apply (table_ok_same_users w)].
    destruct (verify (password u) b); now apply (table_ok_same_users w).
  - rewrite forgotPassword_run. cbv zeta.
    destruct (lookup_user _ w); now apply (table_ok_same_users w).
  - rewrite changePassword_run. cbv zeta.
    destruct (String.length b <=? 2)%nat; [exact Hok|].
    destruct (live_value _ w) as [[|c v]|];
      try now apply (table_ok_same_users w).
    destruct (Js.parseInt (String c v)) as [i|];
      [|now apply (table_ok_same_users w)].
    destruct (lookup_user (ById (Some i)) w) as [u|];
      now apply (table_ok_same_users w).
  - rewrite me_run.
    destruct (userId (session w)) as [[|p|p]|];
      try exact Hok; now apply (table_ok_same_users w).
Qed.

(** ** Who [me] returns after an authentication *)



(** X19. The token [forgotPassword] mails is valid in the world it leaves,
    ids being unique: the store holds the user's id under it, unexpired;
    that value reads back as the id; and the id still finds the user. *)
Theorem forgotPassword_token_is_valid (w : World) (mail : string) (u : User) :
  lookup_user (ByEmail mail) w = Some u ->
  List.NoDup (map id (users w)) ->
  let w' := after (forgotPassword mail) w in
  exists v,
    live_value (FORGOT_PASSWORD_PREFIX +:+ uuid (entropy w)) w' = Some v /\
    Js.parseInt v = Some (id u) /\
    lookup_user (ById (Some (id u))) w' = Some u.
Proof.
  intros Hu Hnd w'.
  destruct (forgotPassword_issues_valid_token FORGOT_PASSWORD_PREFIX verify uuid
              mail w u Hu Hnd) as (Hlive & Hparse & Hid & _).
  exists (Js.Number_toString (id u)). now repeat split.
Qed.

(** ** Once the flush of [changePassword] has landed *)



End Further.

(** ** The further properties at concrete worlds *)

(** The user of id 0 is logged in, and [me] answers [null]. *)
Lemma me_without_user_id_no_lookup_witness :
  userId (session zero_world) = Some 0 /\
  lookup_user (ById (Some 0)) zero_world <> None /\
  UserResolver.me zero_world = (Returned None, zero_world).
Proof.
  assert (Hs : userId (session zero_world) = Some 0) by reflexivity.
  assert (Hrow : lookup_user (ById (Some 0)) zero_world <> None)
    by (vm_compute; discriminate).
  exact (conj Hs (conj Hrow
           (proj1 (me_without_user_id_no_lookup zero_world (or_intror Hs))))).
Defined.

Lemma me_returns_session_user_witness :
  result UserResolver.me logged_in_world = Returned (Some Sample.bob) /\
  userId (session logged_in_world) = Some 1 /\
  In Sample.bob (users logged_in_world).
Proof.
  assert (H : result UserResolver.me logged_in_world = Returned (Some Sample.bob))
    by reflexivity.
  destruct (me_returns_session_user logged_in_world Sample.bob H)
    as (Hs & _ & Hin & _).
  exact (conj H (conj Hs Hin)).
Defined.

Lemma logout_then_me_is_null_witness :
  destroy_fault healthy_exchange = None /\
  result UserResolver.me (stores healthy_exchange) = Returned (Some Sample.bob) /\
  fst (Sample.logout healthy_exchange) = true /\
  cleared_cookies (snd (Sample.logout healthy_exchange)) = ["qid"] /\
  result UserResolver.me (stores (snd (Sample.logout healthy_exchange))) =
    Returned None.
Proof.
  assert (Hf : destroy_fault healthy_exchange = None) by reflexivity.
  destruct (logout_then_me_is_null Sample.cookie healthy_exchange Hf)
    as (Ht & Hc & _ & _ & _ & Hme).
  refine (conj Hf (conj eq_refl (conj Ht (conj Hc _)))).
  unfold result, Sample.logout. now rewrite Hme.
Defined.

Lemma logout_failure_keeps_session_witness :
  destroy_fault failing_exchange = Some "store down" /\
  fst (Sample.logout failing_exchange) = false /\
  cleared_cookies (snd (Sample.logout failing_exchange)) = [] /\
  console (snd (Sample.logout failing_exchange)) = ["store down"] /\
  result UserResolver.me (stores (snd (Sample.logout failing_exchange))) =
    Returned (Some Sample.bob).
Proof.
  assert (Hf : destroy_fault failing_exchange = Some "store down") by reflexivity.
  destruct (logout_failure_keeps_session Sample.cookie failing_exchange _ Hf)
    as (Ht & Hc & Hl & _ & Hme).
  refine (conj Hf (conj Ht (conj Hc (conj Hl _)))).
  unfold Sample.logout. rewrite Hme. reflexivity.
Defined.

Lemma register_new_user_logged_in_witness :
  Sample.validate amy_input = None /\
  insert_fault Sample.empty_world = None /\
  lookup_user (ByUsername "amy") Sample.empty_world = None /\
  lookup_user (ByEmail "amy@example.org") Sample.empty_world = None /\
  result (Sample.register amy_input) Sample.empty_world =
    Returned (response_user amy) /\
  users (after (Sample.register amy_input) Sample.empty_world) = [amy] /\
  session (after (Sample.register amy_input) Sample.empty_world) =
    mkSession (Some 1).
Proof.
  destruct (register_new_user_logged_in Sample.validate Sample.hash
              Sample.empty_world amy_input eq_refl eq_refl eq_refl eq_refl)
    as (Hr & Hu & Hs & _).
  exact (conj eq_refl (conj eq_refl (conj eq_refl (conj eq_refl
           (conj Hr (conj Hu Hs)))))).
Defined.

Lemma register_then_login_witness :
  Sample.verify (Sample.hash 0 "secret") "secret" = true /\
  Js.includes "amy" "@" = false /\
  Js.includes "amy@example.org" "@" = true /\
  result (Sample.login "amy" "secret")
         (after (Sample.register amy_input) Sample.empty_world) =
    Returned (response_user amy) /\
  result (Sample.login "amy@example.org" "secret")
         (after (Sample.register amy_input) Sample.empty_world) =
    Returned (response_user amy).
Proof.
  destruct (register_then_login Sample.validate Sample.hash Sample.verify
              Sample.empty_world amy_input eq_refl eq_refl eq_refl eq_refl eq_refl)
    as (Hname & Hmail).
  exact (conj eq_refl (conj eq_refl (conj eq_refl
           (conj (Hname eq_refl) (Hmail eq_refl))))).
Defined.

Lemma register_username_with_at_cannot_login_witness :
  Sample.validate at_input = None /\
  Js.includes "amy@home" "@" = true /\
  result (Sample.register at_input) Sample.empty_world =
    Returned (response_user
                (mkUser 1 "amy@home" "amy@example.org" "0$secret" 0 0)) /\
  result (Sample.login "amy@home" "secret")
         (after (Sample.register at_input) Sample.empty_world) =
    Returned (response_errors
                [mkFieldError "usernameOrEmail" "username or email doesn't exist"]).
Proof.
  assert (Hne : UsernamePasswordInput.email at_input <>
                UsernamePasswordInput.username at_input) by discriminate.
  destruct (register_username_with_at_cannot_login
              Sample.validate Sample.hash Sample.verify Sample.empty_world
              at_input "secret" eq_refl eq_refl eq_refl eq_refl eq_refl Hne eq_refl)
    as (_ & Hlogin).
  exact (conj eq_refl (conj eq_refl (conj eq_refl Hlogin))).
Defined.

Lemma register_rejected_no_login_witness :
  Sample.validate amy_input = None /\
  session (after (Sample.register amy_input) faulty_world) = session faulty_world /\
  users (after (Sample.register amy_input) faulty_world) = users faulty_world.
Proof.
  destruct (register_rejected_no_login Sample.validate Sample.hash faulty_world
              (logged (KnexInsert "amy" (Sample.hash 1 "secret") "amy@example.org")
                 (after (UserResolver.argon2_hash Sample.hash "secret") faulty_world))
              amy_input (DbExn connection_lost) eq_refl eq_refl)
    as (Hs & Hu & _).
  exact (conj eq_refl (conj Hs Hu)).
Defined.

Lemma login_success_is_verified_witness :
  result (Sample.login "bob" "hunter2") Sample.bob_world =
    Returned (response_user Sample.bob) /\
  In Sample.bob (users Sample.bob_world) /\
  Sample.verify (password Sample.bob) "hunter2" = true /\
  username Sample.bob = "bob".
Proof.
  assert (H : result (Sample.login "bob" "hunter2") Sample.bob_world =
              Returned (response_user Sample.bob)) by reflexivity.
  destruct (login_success_is_verified Sample.verify Sample.bob_world
              "bob" "hunter2" Sample.bob H) as (Hin & Hver & Hname & _).
  exact (conj H (conj Hin (conj Hver Hname))).
Defined.

Lemma forgotPassword_leaves_other_tokens_witness :
  "forget-password:stale" <> Sample.prefix +:+ Sample.uuid (entropy orphan_token_world) /\
  redis (after (Sample.forgotPassword "bob@example.org") orphan_token_world)
    !! "forget-password:stale" = Some (mkRedisEntry "7" 5000).
Proof.
  assert (Hne : "forget-password:stale" <>
                Sample.prefix +:+ Sample.uuid (entropy orphan_token_world))
    by (vm_compute; discriminate).
  destruct (forgotPassword_leaves_other_tokens Sample.prefix Sample.uuid
              orphan_token_world "bob@example.org" "forget-password:stale" Hne)
    as (Hr & _).
  refine (conj Hne _). unfold Sample.forgotPassword. rewrite Hr.
  vm_compute. reflexivity.
Defined.

Lemma forgotPassword_twice_both_tokens_live_witness :
  lookup_user (ByEmail "bob@example.org") Sample.bob_world = Some Sample.bob /\
  Sample.uuid 1 <> Sample.uuid 2 /\
  let w2 := after (Sample.forgotPassword "bob@example.org")
                  (after (Sample.forgotPassword "bob@example.org") Sample.bob_world) in
  live_value "forget-password:token-1" w2 = Some "1" /\
  live_value "forget-password:token-2" w2 = Some "1".
Proof.
  assert (Hne : Sample.uuid 1 <> Sample.uuid 2) by (vm_compute; discriminate).
  exact (conj eq_refl (conj Hne
           (forgotPassword_twice_both_tokens_live Sample.prefix Sample.uuid
              Sample.bob_world "bob@example.org" Sample.bob eq_refl Hne))).
Defined.

Lemma changePassword_user_gone_keeps_token_witness :
  live_value (Sample.prefix +:+ "stale") orphan_token_world = Some "7" /\
  Js.parseInt "7" = Some 7 /\
  lookup_user (ById (Some 7)) orphan_token_world = None /\
  result (Sample.changePassword "stale" "s3cret") orphan_token_world =
    Returned (response_errors [mkFieldError "token" "user no longer exists"]) /\
  live_value (Sample.prefix +:+ "stale")
             (after (Sample.changePassword "stale" "s3cret") orphan_token_world) =
    Some "7".
Proof.
  assert (Hlen : (2 < String.length "s3cret")%nat) by (simpl; lia).
  assert (Hlive : live_value (Sample.prefix +:+ "stale") orphan_token_world =
                  Some "7") by (vm_compute; reflexivity).
  destruct (changePassword_user_gone_keeps_token Sample.prefix Sample.hash
              orphan_token_world "stale" "s3cret" "7" 7 Hlen Hlive eq_refl eq_refl)
    as (Hr & Hstill & _).
  exact (conj Hlive (conj eq_refl (conj eq_refl (conj Hr Hstill)))).
Defined.

Lemma changePassword_after_expiry_witness :
  lookup_user (ByEmail "bob@example.org") Sample.bob_world = Some Sample.bob /\
  1000 * three_days_ms <= 259200000000 /\
  result (Sample.changePassword "token-1" "s3cret")
         (elapse 259200000000 reset_world) =
    Returned (response_errors [mkFieldError "token" "token expired"]).
Proof.
  assert (Hlen : (2 < String.length "s3cret")%nat) by (simpl; lia).
  assert (Hd : 1000 * three_days_ms <= 259200000000)
    by (unfold three_days_ms; lia).
  exact (conj eq_refl (conj Hd
           (changePassword_after_expiry Sample.prefix Sample.hash Sample.uuid
              Sample.bob_world "bob@example.org" "s3cret" Sample.bob
              259200000000 eq_refl Hlen Hd))).
Defined.



Lemma bob_world_table_ok : table_ok Sample.bob_world.
Proof.
  unfold table_ok. simpl.
  repeat split; try (constructor; [simpl; tauto | constructor]).
  constructor; [simpl; lia | constructor].
Defined.

Lemma resolvers_keep_table_ok_witness :
  table_ok Sample.bob_world /\
  table_ok (after (Sample.register amy_input) Sample.bob_world) /\
  table_ok (after (Sample.changePassword "token-1" "s3cret") Sample.bob_world).
Proof.
  destruct (resolvers_keep_table_ok Sample.prefix Sample.validate Sample.hash
              Sample.verify Sample.uuid Sample.bob_world amy_input
              "token-1" "s3cret" bob_world_table_ok) as (Hreg & _ & _ & Hcp & _).
  exact (conj bob_world_table_ok (conj Hreg Hcp)).
Defined.


Lemma forgotPassword_then_changePassword_witness :
  lookup_user (ByEmail "bob@example.org") Sample.bob_world = Some Sample.bob /\
  result (Sample.changePassword "token-1" "s3cret") reset_world =
    Returned (response_user (UserResolver.set_password "2$s3cret" Sample.bob)) /\
  session (after (Sample.changePassword "token-1" "s3cret") reset_world) =
    mkSession (Some 1).
Proof.
  assert (Hlen : (2 < String.length "s3cret")%nat) by (simpl; lia).
  assert (Hnd : List.NoDup (map id (users Sample.bob_world))).
  { change (List.NoDup [1]). constructor; [simpl; tauto | constructor]. }
  exact (conj eq_refl
           (forgotPassword_then_changePassword Sample.prefix Sample.hash
              Sample.verify Sample.uuid "bob@example.org" "s3cret"
              Sample.bob_world Sample.bob Hlen eq_refl Hnd)).
Defined.

Lemma register_insert_failure_without_detail_witness :
  Sample.validate amy_input = None /\
  insert_fault silent_fault_world = Some (mkDbError "timeout" None) /\
  result (Sample.register amy_input) silent_fault_world =
    Thrown (TypeError "Cannot read property 'includes' of undefined").
Proof.
  exact (conj eq_refl (conj eq_refl
           (register_insert_failure_without_detail Sample.validate Sample.hash
              silent_fault_world
              (logged (KnexInsert "amy" (Sample.hash 1 "secret") "amy@example.org")
                 (after (UserResolver.argon2_hash Sample.hash "secret")
                        silent_fault_world))
              amy_input (mkDbError "timeout" None) eq_refl eq_refl eq_refl))).
Defined.

Lemma forgotPassword_token_is_valid_witness :
  lookup_user (ByEmail "bob@example.org") Sample.bob_world = Some Sample.bob /\
  exists v,
    live_value (Sample.prefix +:+ Sample.uuid 1) reset_world = Some v /\
    Js.parseInt v = Some 1 /\
    lookup_user (ById (Some 1)) reset_world = Some Sample.bob.
Proof.
  assert (Hnd : List.NoDup (map id (users Sample.bob_world))).
  { change (List.NoDup [1]). constructor; [simpl; tauto | constructor]. }
  exact (conj eq_refl
           (forgotPassword_token_is_valid Sample.prefix Sample.verify Sample.uuid
              Sample.bob_world "bob@example.org" Sample.bob eq_refl Hnd)).
Defined.

